(** * Model_Selection.ModelQuality: a shallow embedding and its properties

    [ModelQuality] (src/Model_Selection.py) estimates by simulation the
    Type I error and the power of an analysis of a switchback test.  The
    function is a driver around three libraries: pandas (the dataframe it
    prepares and rewrites in every replicate), numpy (the coin flips and
    the final means) and statsmodels (the regressions).

    The embedding keeps the program's own text: the validation, the private
    copy, the two branches, the replicate loops and the final reduction are
    translated statement by statement into a state-and-exception monad
    over a store of dataframes.  The libraries are modelled by what the
    program asks of them:

    - a dataframe is an index (row labels) and a finite map from column
      names to columns; rows are addressed by position, as they are in a
      frame whose index labels are unique; cells hold no missing value;
    - a float is a rational ([Q]), or [NaN] where numpy produces one;
    - [pd.to_datetime], the period bucketing of [pd.Grouper] and the
      statsmodels fits are parameters of the development;
    - [np.random.binomial] reads an explicit stream of coin flips;
    - every draw and every fit is recorded, with its arguments, in a trace.
*)

From Stdlib Require Import QArith Qreduction Lqa.
From stdpp Require Import base option list gmap strings numbers sorting.

Open Scope Z_scope.
Open Scope list_scope.

(** ** Numbers, cells, columns *)

(** A float result: finite, or not-a-number. *)
Inductive num : Type :=
  | Fin (q : Q)
  | NaN.

(** The content of one dataframe cell. *)
Inductive cell : Type :=
  | CNum (q : Q)          (* int64 / float64 *)
  | CStr (s : string)     (* object *)
  | CTime (t : Z).        (* datetime64, as a count of clock ticks *)

Abbreviation column := (list cell).

(** A row label; the aggregated frame is labelled by (location, period). *)
Abbreviation label := (list cell) (only parsing).

#[export] Instance Q_eq_dec : EqDecision Q.
Proof. solve_decision. Defined.

#[export] Instance cell_eq_dec : EqDecision cell.
Proof. solve_decision. Defined.

#[export] Instance num_eq_dec : EqDecision num.
Proof. solve_decision. Defined.

(** Two numeric cells hold the same number when their reduced fractions
    coincide; [norm_cell] picks that representative. *)
Definition norm_cell (c : cell) : cell :=
  match c with
  | CNum q => CNum (Qred q)
  | _ => c
  end.

Definition as_num (c : cell) : option Q :=
  match c with
  | CNum q => Some q
  | _ => None
  end.

Definition cell_of_nat (n : nat) : cell := CNum (inject_Z (Z.of_nat n)).

Definition cell_of_bool (b : bool) : cell := CNum (if b then 1%Q else 0%Q).

(** Order of cells, as [sort_values] and the sorted group keys use it.
    pandas refuses to order values of different kinds; the model ranks the
    kinds instead (the columns sorted below are homogeneous). *)
Definition cell_leb (a b : cell) : bool :=
  match a, b with
  | CNum x, CNum y => Qle_bool x y
  | CNum _, _ => true
  | CStr _, CNum _ => false
  | CStr x, CStr y => String.leb x y
  | CStr _, CTime _ => true
  | CTime x, CTime y => (x <=? y)%Z
  | CTime _, _ => false
  end.

Fixpoint label_leb (a b : label) : bool :=
  match a, b with
  | [], _ => true
  | _ :: _, [] => false
  | x :: a', y :: b' =>
      if decide (x = y) then label_leb a' b' else cell_leb x y
  end.

(** ** Exceptions *)

Inductive exn : Type :=
  | ConfigError (msg : string)  (* the [Exception] ModelQuality raises itself *)
  | KeyError (k : string)
  | TypeError
  | ValueError
  | NameError (v : string)
  | FitError.                   (* raised inside statsmodels *)

Inductive result (A : Type) : Type :=
  | Ok (a : A)
  | Raise (e : exn).
Arguments Ok {A} a.
Arguments Raise {A} e.

#[export] Instance result_ret : MRet result := λ A a, Ok a.
#[export] Instance result_bind : MBind result := λ A B f m,
  match m with
  | Ok a => f a
  | Raise e => Raise e
  end.

Definition of_option {A} (e : exn) (o : option A) : result A :=
  match o with
  | Some a => Ok a
  | None => Raise e
  end.

(** ** Sorting *)

Fixpoint insert_sorted {A} (leb : A → A → bool) (x : A) (l : list A) : list A :=
  match l with
  | [] => [x]
  | y :: l' => if leb x y then x :: l else y :: insert_sorted leb x l'
  end.

(** Stable insertion sort. *)
Definition isort {A} (leb : A → A → bool) (l : list A) : list A :=
  foldr (insert_sorted leb) [] l.

(** The positions of [keys] in sorted order. *)
Definition sort_perm (keys : column) : list nat :=
  snd <$> isort (λ a b, cell_leb a.1 b.1) (zip keys (seq 0 (length keys))).

(** [take_rows pi xs] lists the entries of [xs] at the positions [pi]. *)
Definition take_rows {A} (pi : list nat) (xs : list A) : list A :=
  omap (λ i, xs !! i) pi.

(** ** Dataframes *)

Record frame : Type := Frame {
  index : list label;
  cols : gmap string column
}.

Definition nrows (df : frame) : nat := length (index df).

(** Every column is as long as the index. *)
Definition frame_wf (df : frame) : Prop :=
  ∀ c col, cols df !! c = Some col → length col = nrows df.

(** [df[c]] *)
Definition getitem (df : frame) (c : string) : result column :=
  of_option (KeyError c) (cols df !! c).

(** [df[c] = col] *)
Definition setitem (df : frame) (c : string) (col : column) : frame :=
  Frame (index df) (<[c := col]> (cols df)).

(** [df[c] = v] for a scalar [v] *)
Definition setitem_scalar (df : frame) (c : string) (v : cell) : frame :=
  setitem df c (replicate (nrows df) v).

(** The column [old] with the rows selected by [mask] taken from [new]. *)
Definition assign_where (mask : list bool) (old new : column) : column :=
  zip_with (λ (m : bool) (on : cell * cell), if m then on.2 else on.1)
           mask (zip old new).

(** [df.loc[mask, c] = new], for a column [c] the frame already has (the
    only use ModelQuality makes of it). *)
Definition loc_set (df : frame) (mask : list bool) (c : string) (new : column)
  : result frame :=
  old ← getitem df c;
  Ok (setitem df c (assign_where mask old new)).

(** [df.loc[mask, c] = v] for a scalar [v] *)
Definition loc_set_scalar (df : frame) (mask : list bool) (c : string) (v : cell)
  : result frame :=
  loc_set df mask c (replicate (nrows df) v).

(** [df[cs]]: the listed columns, in a new frame.  With a label repeated in
    [cs] pandas builds a frame in which that label no longer names a single
    column, and the statements that follow fail on it; the model stops at
    the selection. *)
Definition select (df : frame) (cs : list string) : result frame :=
  if decide (NoDup cs) then
    picked ← mapM (λ c, col ← getitem df c; Ok (c, col)) cs;
    Ok (Frame (index df) (list_to_map picked))
  else Raise ValueError.

(** [col == q] *)
Definition eq_scalar (col : column) (q : Q) : list bool :=
  (λ c, match c with CNum x => Qeq_bool x q | _ => false end) <$> col.

(** [col.unique()]: the distinct values, in order of first appearance. *)
Definition unique (col : column) : column :=
  remove_dups (norm_cell <$> col).

(** [col.isin(values)] *)
Definition isin (col : column) (values : list cell) : list bool :=
  (λ c, bool_decide (norm_cell c ∈ norm_cell <$> values)) <$> col.

(** [xs[mask]]: boolean indexing. *)
Definition mask_select {A} (xs : list A) (mask : list bool) : list A :=
  fst <$> filter (λ xm, xm.2 = true) (zip xs mask).

(** [col * x] *)
Definition mul_scalar (col : column) (x : Q) : result column :=
  of_option TypeError
    (mapM (λ c, q ← as_num c; Some (CNum (q * x)%Q)) col).

(** [df.sort_values(by, inplace=True)] *)
Definition sort_values (df : frame) (by_ : string) : result frame :=
  keys ← getitem df by_;
  let pi := sort_perm keys in
  Ok (Frame (take_rows pi (index df)) (take_rows pi <$> cols df)).

(** ** Grouping by location and period *)

(** The group key of every row.  [floor] is the period bucketing;
    [time_first] tells whether the period is the first or the second
    grouping key.  Grouping by period needs a datetime column. *)
Definition row_keys (floor : Z → Z) (time_first : bool)
    (times locations : column) : result (list label) :=
  of_option TypeError
    (mapM (λ tl : cell * cell,
             match tl.1 with
             | CTime t =>
                 Some (if time_first
                       then [CTime (floor t); norm_cell tl.2]
                       else [norm_cell tl.2; CTime (floor t)])
             | _ => None
             end)
          (zip times locations)).

(** The distinct keys, sorted: the groups of a [groupby]. *)
Definition group_keys (keys : list label) : list label :=
  isort label_leb (remove_dups keys).

(** The number of the group a key belongs to. *)
Definition group_number (groups : list label) (k : label) : nat :=
  default 0%nat (fst <$> list_find (λ g, g = k) groups).

Definition Qsum (xs : list Q) : Q := foldr Qplus 0%Q xs.

Definition Qmean (xs : list Q) : Q :=
  (Qsum xs / inject_Z (Z.of_nat (length xs)))%Q.

(** The values of the rows whose key is [g]. *)
Definition group_values (keys : list label) (xs : list Q) (g : label) : list Q :=
  snd <$> filter (λ kx, kx.1 = g) (zip keys xs).

(** The mean of a column within every group; a column that is not numeric
    throughout has no mean. *)
Definition group_mean (keys groups : list label) (col : column) : option column :=
  xs ← mapM as_num col;
  Some ((λ g, CNum (Qmean (group_values keys xs g))) <$> groups).

(** [np.mean(xs)]: NaN (and a warning) on an empty list. *)
Definition np_mean (xs : list Q) : num :=
  match xs with
  | [] => NaN
  | _ => Fin (Qmean xs)
  end.

(** [float(p < alpha)] *)
Definition significant (p : num) (alpha : Q) : Q :=
  match p with
  | Fin q => if Qle_bool alpha q then 0%Q else 1%Q
  | NaN => 0%Q
  end.

(** ** The calls into numpy and statsmodels *)

Inductive covariance : Type :=
  | NonRobust
  | ClusterRobust (groups : column).   (* cov_type='cluster' *)

(** What a fit is asked to do.  Both models regress [endog] on the single
    regressor [exog] (the column named ["variant"]) and, when [intercept]
    is set, a constant; the fit answers with the p-value of the regressor. *)
Inductive fit_request : Type :=
  | OLS (endog : column) (intercept : bool) (exog : column) (cov : covariance)
  | MixedLM (endog : column) (intercept : bool) (exog : column) (groups : column).

Inductive event : Type :=
  | EDraw (n : Z) (p : Q) (bits : list bool)
      (* np.random.binomial(n, p, size) and the flips it returned *)
  | EFit (response regressor term : string) (req : fit_request).
      (* a model built on the columns [response] and [regressor], fitted,
         and the p-value of [term] read off *)

(** ** The store, the random stream and the trace *)

Record world : Type := World {
  heap : gmap nat frame;   (* the dataframe objects, by reference *)
  coins : nat → bool;      (* the flips numpy's generator will produce *)
  drawn : nat;             (* how many of them were consumed *)
  trace : list event       (* the library calls made so far *)
}.

Definition M (A : Type) : Type := world → result A * world.

#[export] Instance M_ret : MRet M := λ A a w, (Ok a, w).
#[export] Instance M_bind : MBind M := λ A B f m w,
  match m w with
  | (Ok a, w') => f a w'
  | (Raise e, w') => (Raise e, w')
  end.

Definition raise {A} (e : exn) : M A := λ w, (Raise e, w).

Definition lift {A} (r : result A) : M A := λ w, (r, w).

Definition set_heap (w : world) (h : gmap nat frame) : world :=
  World h (coins w) (drawn w) (trace w).

(** Dereference a dataframe variable. *)
Definition read (r : nat) : M frame := λ w,
  (of_option (NameError "data") (heap w !! r), w).

(** A new dataframe object. *)
Definition alloc (df : frame) : M nat := λ w,
  let r := fresh (dom (heap w)) in
  (Ok r, set_heap w (<[r := df]> (heap w))).

(** A statement that rewrites the object [r] in place. *)
Definition update (r : nat) (f : frame → result frame) : M unit := λ w,
  match heap w !! r with
  | None => (Raise (NameError "data"), w)
  | Some df =>
      match f df with
      | Ok df' => (Ok tt, set_heap w (<[r := df']> (heap w)))
      | Raise e => (Raise e, w)
      end
  end.

(** [np.random.binomial(n, p, size)] with [n = 1]: [size] flips. *)
Definition binomial (n : Z) (p : Q) (size : nat) : M (list bool) := λ w,
  let bits := (λ i, coins w (drawn w + i)%nat) <$> seq 0 size in
  (Ok bits,
   World (heap w) (coins w) (drawn w + size)%nat (trace w ++ [EDraw n p bits])).

(** ** The statements of a replicate, as frame transformers *)

(** [df['variant'] = 0] (lines 51 and 88) *)
Definition zero_variant (df : frame) : result frame :=
  Ok (setitem_scalar df "variant" (CNum 0)).

(** [data.loc[data['period_city'].isin(variant), 'variant'] = 1] (line 89) *)
Definition label_rows (variant : list cell) (df : frame) : result frame :=
  pc ← getitem df "period_city";
  loc_set_scalar df (isin pc variant) "variant" (CNum 1).

(** [data_agg.loc[data_agg.index.isin(variant.index), 'variant'] = 1] (line 52) *)
Definition label_clusters (variant_index : list label) (df : frame) : result frame :=
  loc_set_scalar df ((λ l, bool_decide (l ∈ variant_index)) <$> index df)
    "variant" (CNum 1).

(** [df['outcome_sim'] = df[outcome_var]] (lines 56 and 92) *)
Definition copy_outcome (outcome_var : string) (df : frame) : result frame :=
  y ← getitem df outcome_var;
  Ok (setitem df "outcome_sim" y).

(** [df.loc[df['variant'] == 1, 'outcome_sim'] = df[outcome_var] * MDE]
    (lines 57 and 93); Python evaluates the right-hand side first. *)
Definition scale_treated (outcome_var : string) (MDE : Q) (df : frame)
  : result frame :=
  y ← getitem df outcome_var;
  scaled ← mul_scalar y MDE;
  v ← getitem df "variant";
  loc_set df (eq_scalar v 1) "outcome_sim" scaled.

Section ModelQuality.

(** [pd.to_datetime] on one cell; [None] when it raises. *)
Variable to_datetime : cell → option Z.

(** The period flooring of [pd.Grouper(freq=...)]; [None] for a frequency
    pandas does not know. *)
Variable bucketing : string → option (Z → Z).

(** [model.fit().pvalues.loc['variant']]; [None] when statsmodels raises. *)
Variable fit : fit_request → option num.

Definition call_fit (response : string) (req : fit_request) : M num := λ w,
  (of_option FitError (fit req),
   World (heap w) (coins w) (drawn w)
         (trace w ++ [EFit response "variant" "variant" req])).

(** [data[time_var] = pd.to_datetime(data[time_var])] *)
Definition convert_time (time_var : string) (df : frame) : result frame :=
  raw ← getitem df time_var;
  times ← of_option ValueError (mapM to_datetime raw);
  Ok (setitem df time_var (CTime <$> times)).

(** [data.groupby([location_var, pd.Grouper(key=time_var, freq=Frequency)]).mean()]:
    one row per group, labelled by the group key; the grouping columns
    leave the frame and the columns without a mean are dropped. *)
Definition groupby_mean (df : frame) (location_var time_var Frequency : string)
  : result frame :=
  floor ← of_option ValueError (bucketing Frequency);
  locations ← getitem df location_var;
  times ← getitem df time_var;
  keys ← row_keys floor false times locations;
  let groups := group_keys keys in
  Ok (Frame groups
        (omap (group_mean keys groups)
              (delete time_var (delete location_var (cols df))))).

(** Lines 74-81: group the rows by (period, location) and give every row,
    in a new column [period_city], the number of its group. *)
Definition assign_period_city (df : frame)
    (time_var location_var outcome_var Frequency : string) : result frame :=
  floor ← of_option ValueError (bucketing Frequency);
  times ← getitem df time_var;
  locations ← getitem df location_var;
  keys ← row_keys floor true times locations;
  _ ← getitem df outcome_var;
  let groups := group_keys keys in
  Ok (setitem df "period_city"
        ((λ k, cell_of_nat (group_number groups k)) <$> keys)).

(** Lines 47-72, one iteration after the other. *)
Fixpoint loop_agg (n : nat) (data_agg : nat) (outcome_var : string) (MDE : Q)
    (method : string) (alpha : Q)
    (significant_resultsAA significant_resultsAB : list Q)
  : M (list Q * list Q) :=
  match n with
  | O => mret (significant_resultsAA, significant_resultsAB)
  | S n' =>
      df ← read data_agg;
      binom ← binomial 1 (1 # 2) (nrows df);
      (* variant = data_agg[binom == 1]; only its index is used *)
      let variant_index := mask_select (index df) binom in
      update data_agg zero_variant;;
      update data_agg (label_clusters variant_index);;
      pp ← (if decide (method = "ols") then
              update data_agg (copy_outcome outcome_var);;
              update data_agg (scale_treated outcome_var MDE);;
              (* A/A test *)
              df ← read data_agg;
              y ← lift (getitem df outcome_var);
              v ← lift (getitem df "variant");
              p_value_AA ← call_fit outcome_var (OLS y true v NonRobust);
              (* A/B test *)
              df ← read data_agg;
              y_sim ← lift (getitem df "outcome_sim");
              v ← lift (getitem df "variant");
              p_value_AB ← call_fit "outcome_sim" (OLS y_sim true v NonRobust);
              mret (p_value_AA, p_value_AB)
            else if decide (method = "mlm") then
              raise (ConfigError "Aggregation not supported for method mlm")
            else raise (NameError "p_value_AA"));
      loop_agg n' data_agg outcome_var MDE method alpha
        (significant_resultsAA ++ [significant pp.1 alpha])
        (significant_resultsAB ++ [significant pp.2 alpha])
  end.

(** Lines 84-117, one iteration after the other. *)
Fixpoint loop_order (n : nat) (data : nat) (unique_PeriodCity : column)
    (outcome_var : string) (MDE : Q) (method : string) (alpha : Q)
    (significant_resultsAA significant_resultsAB : list Q)
  : M (list Q * list Q) :=
  match n with
  | O => mret (significant_resultsAA, significant_resultsAB)
  | S n' =>
      binom ← binomial 1 (1 # 2) (length unique_PeriodCity);
      let variant := mask_select unique_PeriodCity binom in
      update data zero_variant;;
      update data (label_rows variant);;
      update data (copy_outcome outcome_var);;
      update data (scale_treated outcome_var MDE);;
      pp ← (if decide (method = "ols") then
              (* A/A test *)
              df ← read data;
              y ← lift (getitem df outcome_var);
              v ← lift (getitem df "variant");
              g ← lift (getitem df "period_city");
              p_value_AA ← call_fit outcome_var (OLS y true v (ClusterRobust g));
              (* A/B test *)
              df ← read data;
              y_sim ← lift (getitem df "outcome_sim");
              v ← lift (getitem df "variant");
              g ← lift (getitem df "period_city");
              p_value_AB ← call_fit "outcome_sim" (OLS y_sim true v (ClusterRobust g));
              mret (p_value_AA, p_value_AB)
            else if decide (method = "mlm") then
              (* MLM A/A test: '{outcome_var} ~ variant' *)
              df ← read data;
              y ← lift (getitem df outcome_var);
              v ← lift (getitem df "variant");
              g ← lift (getitem df "period_city");
              p_value_AA ← call_fit outcome_var (MixedLM y true v g);
              (* MLM A/B test: 'outcome_sim ~ variant' *)
              df ← read data;
              y_sim ← lift (getitem df "outcome_sim");
              v ← lift (getitem df "variant");
              g ← lift (getitem df "period_city");
              p_value_AB ← call_fit "outcome_sim" (MixedLM y_sim true v g);
              mret (p_value_AA, p_value_AB)
            else raise (NameError "p_value_AA"));
      loop_order n' data unique_PeriodCity outcome_var MDE method alpha
        (significant_resultsAA ++ [significant pp.1 alpha])
        (significant_resultsAB ++ [significant pp.2 alpha])
  end.

Definition ModelQuality (data : nat)
    (time_var location_var outcome_var Frequency : string)
    (control_vars : option (list string)) (MDE : Q) (sims : Z)
    (method : string) (agg : bool) : M (list num) :=
  if bool_decide (method ∉ ["ols"; "mlm"]) then
    raise (ConfigError ("Function not implemented for method " +:+ method))
  else if agg && bool_decide (method = "mlm") then
    raise (ConfigError "Aggregation not supported for method mlm")
  else
    (* make a local copy of the relevant data cols *)
    let cols := [time_var; location_var; outcome_var] ++ default [] control_vars in
    caller ← read data;
    picked ← lift (select caller cols);
    data ← alloc picked;
    update data (convert_time time_var);;
    let alpha := (5 # 100)%Q in
    results ←
      (if agg then
         df ← read data;
         aggregated ← lift (groupby_mean df location_var time_var Frequency);
         data_agg ← alloc aggregated;
         loop_agg (Z.to_nat sims) data_agg outcome_var MDE method alpha [] []
       else
         update data (λ df,
           assign_period_city df time_var location_var outcome_var Frequency);;
         update data (λ df, sort_values df "period_city");;
         df ← read data;
         period_city ← lift (getitem df "period_city");
         let unique_PeriodCity := unique period_city in
         loop_order (Z.to_nat sims) data unique_PeriodCity outcome_var MDE
           method alpha [] []);
    let typeI_error := np_mean results.1 in
    let power := np_mean results.2 in
    mret [typeI_error; power].

End ModelQuality.

(** * Notions used in the statements *)

(** A column of numbers. *)
Definition numeric (xs : list Q) : column := CNum <$> xs.

(** The synthetic outcome: [x * MDE] on the rows labelled 1, [x] elsewhere. *)
Definition synthetic (MDE : Q) (v : column) (xs : list Q) : column :=
  assign_where (eq_scalar v 1) (numeric xs) (numeric ((λ q, q * MDE)%Q <$> xs)).

(** The objects at the references in [P] are the same in both worlds. *)
Definition heap_kept (P : gset nat) (w w' : world) : Prop :=
  ∀ r, r ∈ P → heap w' !! r = heap w !! r.

(** Line 35-37: the columns of the private copy. *)
Definition columns_of (tv lv ov : string) (cv : option (list string)) : list string :=
  [tv; lv; ov] ++ default [] cv.

Section Notions.
Variable to_datetime : cell → option Z.
Variable bucketing : string → option (Z → Z).
Variable fit : fit_request → option num.

(** One replicate, as the trace shows it: the flips and the two fits. *)
Record rep : Type := Rep {
  rep_bits : list bool;
  rep_AA : fit_request;
  rep_AB : fit_request
}.

Definition rep_events (outcome_var : string) (r : rep) : list event :=
  [EDraw 1 (1 # 2) (rep_bits r);
   EFit outcome_var "variant" "variant" (rep_AA r);
   EFit "outcome_sim" "variant" "variant" (rep_AB r)].

(** The significance indicator a fit contributes. *)
Definition indicator (alpha : Q) (req : fit_request) : Q :=
  match fit req with
  | Some p => significant p alpha
  | None => 0%Q
  end.

(** The request of the order-level branch for the chosen method. *)
Definition build_order (method : string) (y v g : column) : fit_request :=
  if decide (method = "ols") then OLS y true v (ClusterRobust g)
  else MixedLM y true v g.

(** The four statements that rewrite the frame in a replicate. *)
Definition replicate_frame (label_step : frame → result frame)
    (outcome_var : string) (MDE : Q) (df : frame) : result frame :=
  df1 ← zero_variant df;
  df2 ← label_step df1;
  df3 ← copy_outcome outcome_var df2;
  scale_treated outcome_var MDE df3.

(** One iteration of [loop_order], from the frame [df] to the frame [df']. *)
Definition order_step (U : column) (outcome_var : string) (MDE : Q)
    (method : string) (df : frame) (rp : rep) (df' : frame) : Prop :=
  length (rep_bits rp) = length U ∧
  replicate_frame (label_rows (mask_select U (rep_bits rp))) outcome_var MDE df
    = Ok df' ∧
  ∃ y v g y_sim,
    cols df' !! outcome_var = Some y ∧ cols df' !! "variant" = Some v ∧
    cols df' !! "period_city" = Some g ∧ cols df' !! "outcome_sim" = Some y_sim ∧
    rep_AA rp = build_order method y v g ∧
    rep_AB rp = build_order method y_sim v g.

(** One iteration of [loop_agg]. *)
Definition agg_step (outcome_var : string) (MDE : Q)
    (df : frame) (rp : rep) (df' : frame) : Prop :=
  length (rep_bits rp) = nrows df ∧
  replicate_frame (label_clusters (mask_select (index df) (rep_bits rp)))
    outcome_var MDE df = Ok df' ∧
  ∃ y v y_sim,
    cols df' !! outcome_var = Some y ∧ cols df' !! "variant" = Some v ∧
    cols df' !! "outcome_sim" = Some y_sim ∧
    rep_AA rp = OLS y true v NonRobust ∧
    rep_AB rp = OLS y_sim true v NonRobust.
End Notions.

Section Preparation.
Variable to_datetime : cell → option Z.
Variable bucketing : string → option (Z → Z).

(** Lines 35-39: the private copy, with its time column converted. *)
Definition private_copy (src : frame) (cs : list string) (time_var : string)
  : result frame :=
  picked ← select src cs;
  convert_time to_datetime time_var picked.

(** The frame the order-level loop starts from (lines 74-82). *)
Definition order_frame (src : frame) (cs : list string)
    (time_var location_var outcome_var Frequency : string) : result frame :=
  copy ← private_copy src cs time_var;
  numbered ← assign_period_city bucketing copy time_var location_var
               outcome_var Frequency;
  sort_values numbered "period_city".

(** The frame the aggregated loop starts from (line 46). *)
Definition agg_frame (src : frame) (cs : list string)
    (time_var location_var Frequency : string) : result frame :=
  copy ← private_copy src cs time_var;
  groupby_mean bucketing copy location_var time_var Frequency.

(** The region-time cluster of every observation of the caller's data:
    its period (the converted time, floored) and its location. *)
Definition observation_keys (src : frame)
    (time_var location_var Frequency : string) (time_first : bool)
  : result (list label) :=
  floor ← of_option ValueError (bucketing Frequency);
  raw ← getitem src time_var;
  times ← of_option ValueError (mapM to_datetime raw);
  locations ← getitem src location_var;
  row_keys floor time_first (CTime <$> times) locations.

(** The number [period_city] gives to a cluster. *)
Definition cluster_id (keys : list label) (k : label) : cell :=
  cell_of_nat (group_number (group_keys keys) k).

(** The order [sort_values] puts the rows in. *)
Definition row_order (keys : list label) : list nat :=
  sort_perm (cluster_id keys <$> keys).
End Preparation.

(** ** The rows the fits see, and the clusters the flips go to *)

(** The key of every row the models are fitted on: one row per cluster in
    the aggregated mode, the observations (sorted by cluster) otherwise. *)
Definition analysis_rows (agg : bool) (keys : list label) : list label :=
  if agg then group_keys keys else take_rows (row_order keys) keys.

(** The distinct clusters, in the order the flips are dealt to them. *)
Definition drawn_clusters (agg : bool) (keys : list label) : list label :=
  if agg then group_keys keys else remove_dups (take_rows (row_order keys) keys).

(** Whether the flips put cluster [k] in the variant group. *)
Definition treated (clusters : list label) (bits : list bool) (k : label) : bool :=
  bool_decide (k ∈ mask_select clusters bits).

(** The treatment label of every row. *)
Definition labels (clusters : list label) (bits : list bool) (rows : list label)
  : column :=
  (λ k, cell_of_bool (treated clusters bits k)) <$> rows.

(** The request either branch builds from a response and the labels. *)
Definition build (agg : bool) (method : string) (keys : list label)
    (y v : column) : fit_request :=
  if agg then OLS y true v NonRobust
  else build_order method y v (cluster_id keys <$> analysis_rows false keys).

(** The column names ModelQuality writes to. *)
Definition reserved (agg : bool) : list string :=
  if agg then ["variant"; "outcome_sim"]
  else ["variant"; "outcome_sim"; "period_city"].

(** The outcome of every analysis row: the caller's outcome column, sorted
    along with the rows, or its mean within every cluster. *)
Definition analysis_outcome (agg : bool) (src : frame) (outcome_var : string)
    (keys : list label) : option column :=
  if agg then cols src !! outcome_var ≫= group_mean keys (group_keys keys)
  else take_rows (row_order keys) <$> cols src !! outcome_var.

(** What the trace of a replicate satisfies. *)
Definition rep_good (agg : bool) (method : string) (MDE : Q) (outcome_var : string)
    (src : frame) (keys : list label) (rp : rep) : Prop :=
  let rows := analysis_rows agg keys in
  let clusters := drawn_clusters agg keys in
  let v := labels clusters (rep_bits rp) rows in
  length (rep_bits rp) = length clusters ∧
  ∃ xs : list Q,
    length xs = length rows ∧
    rep_AB rp = build agg method keys (synthetic MDE v xs) v ∧
    rep_AA rp = build agg method keys
                  (if decide (outcome_var = "outcome_sim")
                   then synthetic MDE v xs else numeric xs) v ∧
    (outcome_var ∉ reserved agg →
     analysis_outcome agg src outcome_var keys = Some (numeric xs)).

(** The frame the loop of either branch starts from. *)
Definition analysis_frame (to_datetime : cell → option Z)
    (bucketing : string → option (Z → Z)) (agg : bool) (src : frame)
    (tv lv ov F : string) (cv : option (list string)) : result frame :=
  if agg then agg_frame to_datetime bucketing src (columns_of tv lv ov cv) tv lv F
  else order_frame to_datetime bucketing src (columns_of tv lv ov cv) tv lv ov F.

(** What the order-level loop keeps true of its frame: the index and the
    cluster numbers of the frame [df0] it started from, and every column
    it does not write to. *)
Definition order_inv (df0 : frame) (keys : list label) (df : frame) : Prop :=
  frame_wf df ∧ index df = index df0 ∧
  cols df !! "period_city"
    = Some (cluster_id keys <$> analysis_rows false keys) ∧
  ∀ c, c ∉ reserved false → cols df !! c = cols df0 !! c.

(** What the aggregated loop keeps true of its frame. *)
Definition agg_inv (df0 : frame) (keys : list label) (df : frame) : Prop :=
  frame_wf df ∧ index df = group_keys keys ∧
  ∀ c, c ∉ reserved true → cols df !! c = cols df0 !! c.

(** The inputs the interface of ModelQuality admits: a well-formed frame
    that has the named columns (each named once), a time column
    [pd.to_datetime] converts, a frequency pandas knows, a numeric outcome
    column, and a supported combination of method and mode. *)
Definition valid_input (to_datetime : cell → option Z)
    (bucketing : string → option (Z → Z)) (src : frame)
    (tv lv ov F : string) (cv : option (list string))
    (method : string) (agg : bool) : Prop :=
  frame_wf src ∧
  NoDup (columns_of tv lv ov cv) ∧
  (∀ c, c ∈ columns_of tv lv ov cv → is_Some (cols src !! c)) ∧
  (∃ raw, cols src !! tv = Some raw ∧ is_Some (mapM to_datetime raw)) ∧
  is_Some (bucketing F) ∧
  (∃ ys, cols src !! ov = Some (numeric ys)) ∧
  (method = "ols" ∨ (method = "mlm" ∧ agg = false)).

(** A computation that leaves alone the objects at the references in [P],
    whatever its outcome. *)
Definition keeps {A} (P : gset nat) (m : M A) : Prop :=
  ∀ w res w', P ⊆ dom (heap w) → m w = (res, w') → heap_kept P w w'.

(** A float in the unit interval. *)
Definition in_unit (x : num) : Prop :=
  match x with
  | Fin q => (0 <= q)%Q ∧ (q <= 1)%Q
  | NaN => False
  end.

(** The response, the regressor and the grouping of a request. *)
Definition endog_of (req : fit_request) : column :=
  match req with
  | OLS y _ _ _ => y
  | MixedLM y _ _ _ => y
  end.

Definition exog_of (req : fit_request) : column :=
  match req with
  | OLS _ _ v _ => v
  | MixedLM _ _ v _ => v
  end.


(** All the observations of a cluster carry the same label, 0 or 1. *)
Definition labels_by_cluster (rows : list label) (v : column) : Prop :=
  length v = length rows ∧
  (∀ i j k ci cj,
     rows !! i = Some k → rows !! j = Some k →
     v !! i = Some ci → v !! j = Some cj → ci = cj) ∧
  Forall (λ c, c = CNum 0 ∨ c = CNum 1) v.

(** ** A small data set *)

(** Four orders in two cities; with ten ticks to the period they fall in
    three region-time clusters. *)
Definition toy_frame (outcome : string) : frame :=
  Frame [[CNum 0]; [CNum 1]; [CNum 2]; [CNum 3]]
    (list_to_map
       [("t", [CTime 5; CTime 15; CTime 7; CTime 5]);
        ("city", [CStr "b"; CStr "a"; CStr "a"; CStr "b"]);
        (outcome, [CNum 1; CNum 2; CNum 3; CNum 4]);
        ("note", [CStr "u"; CStr "v"; CStr "w"; CStr "x"])]).

Definition toy_datetime (c : cell) : option Z :=
  match c with
  | CTime t => Some t
  | _ => None
  end.

Definition toy_bucketing (freq : string) : option (Z → Z) :=
  if decide (freq = "10") then Some (λ t, t / 10 * 10) else None.

(** A stand-in for the estimators: significant exactly when some row
    labelled 1 has a response above 5. *)
Definition toy_fit (req : fit_request) : option num :=
  Some (if existsb (λ yv : cell * cell,
                      match yv with
                      | (CNum y, CNum v) => Qeq_bool v 1 && negb (Qle_bool y 5)
                      | _ => false
                      end)
                   (zip (endog_of req) (exog_of req))
        then Fin (1 # 100) else Fin (1 # 2)).

Definition toy_world (outcome : string) : world :=
  World {[ 0%nat := toy_frame outcome ]} (λ i, Nat.even i) 0 [].

(** ModelQuality on the small data set, with the outcome column named
    [outcome]. *)
Definition toy_run (outcome : string) (MDE : Q) (sims : Z) (method : string)
    (agg : bool) : result (list num) * world :=
  ModelQuality toy_datetime toy_bucketing toy_fit 0%nat "t" "city" outcome "10"
    None MDE sims method agg (toy_world outcome).

(** ** The flips of a replicate *)

(** The flips replicate number [j] of a run started in [w] is dealt, when
    every replicate is dealt [k] of them: the next [k] of the stream. *)
Definition flips (w : world) (k j : nat) : list bool :=
  (λ i, coins w (drawn w + j * k + i)%nat) <$> seq 0 k.

(** * Properties *)

(** ** The monads *)

Lemma bind_cases {A B} (m : M A) (f : A → M B) w res w' :
  (m ≫= f) w = (res, w') →
  (∃ a w1, m w = (Ok a, w1) ∧ f a w1 = (res, w')) ∨
  (∃ e, m w = (Raise e, w') ∧ res = Raise e).
Proof.
  unfold mbind, M_bind. destruct (m w) as [[a|e] w1]; intros H.
  - left. eauto.
  - right. inversion H; subst. eauto.
Qed.

Lemma bind_Ok {A B} (m : M A) (f : A → M B) w b w' :
  (m ≫= f) w = (Ok b, w') →
  ∃ a w1, m w = (Ok a, w1) ∧ f a w1 = (Ok b, w').
Proof.
  intros H. apply bind_cases in H as [H|(e & _ & H)]; [done|discriminate].
Qed.

Lemma bind_run {A B} (m : M A) (f : A → M B) w a w1 :
  m w = (Ok a, w1) → (m ≫= f) w = f a w1.
Proof. unfold mbind, M_bind. by intros ->. Qed.

Lemma result_bind_Ok {A B} (f : A → result B) (m : result A) b :
  m ≫= f = Ok b → ∃ a, m = Ok a ∧ f a = Ok b.
Proof. destruct m as [a|e]; simpl; [eauto|discriminate]. Qed.

Lemma of_option_Ok {A} e (o : option A) a : of_option e o = Ok a ↔ o = Some a.
Proof. destruct o; simpl; split; congruence. Qed.

Lemma getitem_Ok df c col : getitem df c = Ok col ↔ cols df !! c = Some col.
Proof. apply of_option_Ok. Qed.

Lemma read_Ok r w df w' : read r w = (Ok df, w') → heap w !! r = Some df ∧ w' = w.
Proof.
  unfold read. intros [= H1 H2]. by apply of_option_Ok in H1.
Qed.

Lemma read_run r w df : heap w !! r = Some df → read r w = (Ok df, w).
Proof. unfold read. by intros ->. Qed.

Lemma lift_Ok {A} (r : result A) w a w' : lift r w = (Ok a, w') → r = Ok a ∧ w' = w.
Proof. unfold lift. by intros [= -> ->]. Qed.

Lemma update_Ok r f w u w' :
  update r f w = (Ok u, w') →
  ∃ df df', heap w !! r = Some df ∧ f df = Ok df' ∧
            w' = set_heap w (<[r := df']> (heap w)).
Proof.
  unfold update. destruct (heap w !! r) as [df|]; [|discriminate].
  destruct (f df) as [df'|e] eqn:E; [|discriminate].
  intros H. inversion H. eauto.
Qed.

Lemma update_run r f w df df' :
  heap w !! r = Some df → f df = Ok df' →
  update r f w = (Ok tt, set_heap w (<[r := df']> (heap w))).
Proof. unfold update. by intros -> ->. Qed.

(** Two statements on the same object, run one after the other. *)
Lemma update_update_run r f g w df df1 df2 :
  heap w !! r = Some df → f df = Ok df1 → g df1 = Ok df2 →
  (update r f;; update r g) w = (Ok tt, set_heap w (<[r := df2]> (heap w))).
Proof.
  intros Hr Hf Hg. rewrite (bind_run _ _ _ _ _ (update_run _ _ _ _ _ Hr Hf)).
  rewrite (update_run _ _ _ df1 df2); [|simpl; apply lookup_insert_eq|done].
  unfold set_heap; simpl. by rewrite insert_insert_eq.
Qed.

(** ** What a computation may change *)

Lemma heap_kept_refl P w : heap_kept P w w.
Proof. by intros r _. Qed.

Lemma heap_kept_trans P w1 w2 w3 :
  heap_kept P w1 w2 → heap_kept P w2 w3 → heap_kept P w1 w3.
Proof. intros H1 H2 r Hr. rewrite H2 by done. by apply H1. Qed.

Lemma update_kept P r f w res w' :
  r ∉ P → update r f w = (res, w') → heap_kept P w w'.
Proof.
  unfold update. intros Hr H.
  destruct (heap w !! r) as [df|]; [|inversion H; apply heap_kept_refl].
  destruct (f df) as [df'|e]; inversion H; subst; [|apply heap_kept_refl].
  intros r' Hr'. simpl. apply lookup_insert_ne. set_solver.
Qed.

Lemma alloc_Ok df w r w' :
  alloc df w = (Ok r, w') →
  (r ∉ dom (heap w)) ∧ w' = set_heap w (<[r := df]> (heap w)).
Proof.
  unfold alloc. intros H. inversion H; subst. split; [|done].
  apply is_fresh.
Qed.

Lemma alloc_total df w : ∃ r, alloc df w = (Ok r, set_heap w (<[r := df]> (heap w))).
Proof. eexists. reflexivity. Qed.

(** ** Columns *)

Lemma mapM_as_num_Some col xs : mapM as_num col = Some xs ↔ col = numeric xs.
Proof.
  rewrite mapM_Some. unfold numeric. split.
  - induction 1 as [|c x col xs Hc _ IH]; [done|].
    destruct c; simplify_eq/=. by f_equal.
  - intros ->. induction xs; constructor; done.
Qed.

Lemma mul_scalar_numeric xs m :
  mul_scalar (numeric xs) m = Ok (numeric ((λ q, q * m)%Q <$> xs)).
Proof.
  unfold mul_scalar, numeric.
  assert (mapM (λ c, q ← as_num c; Some (CNum (q * m)%Q)) (CNum <$> xs)
          = Some (CNum <$> ((λ q, q * m)%Q <$> xs))) as ->; [|done].
  apply mapM_Some. induction xs; simpl; constructor; done.
Qed.

Lemma mul_scalar_Ok col m s :
  mul_scalar col m = Ok s → ∃ xs, col = numeric xs.
Proof.
  unfold mul_scalar. intros H. apply of_option_Ok in H.
  apply mapM_Some in H. exists (omap as_num col). unfold numeric.
  induction H as [|c x col s Hc _ IH]; [done|].
  destruct c; simplify_eq/=. by f_equal.
Qed.

Lemma mul_scalar_Raise col m :
  (∀ xs, col ≠ numeric xs) → mul_scalar col m = Raise TypeError.
Proof.
  intros H. unfold mul_scalar.
  destruct (mapM _ col) as [s|] eqn:E; [|done].
  destruct (mul_scalar_Ok col m s) as [xs ->]; [by unfold mul_scalar; rewrite E|].
  by destruct (H xs).
Qed.

Lemma length_assign_where mask old new :
  length mask = length old → length new = length old →
  length (assign_where mask old new) = length old.
Proof.
  intros H1 H2. unfold assign_where.
  rewrite length_zip_with, length_zip. lia.
Qed.

Lemma assign_where_lookup mask old new i :
  assign_where mask old new !! i =
    m ← mask !! i; o ← old !! i; n ← new !! i; Some (if m : bool then n else o).
Proof.
  unfold assign_where. rewrite lookup_zip_with.
  destruct (mask !! i) as [m|]; simpl; [|done].
  rewrite lookup_zip_with.
  destruct (old !! i); simpl; [|done]. by destruct (new !! i).
Qed.

(** Labelling: a column of zeros, with ones where the mask holds. *)
Lemma assign_where_scalars (mask : list bool) n :
  length mask = n →
  assign_where mask (replicate n (CNum 0)) (replicate n (CNum 1))
  = cell_of_bool <$> mask.
Proof.
  intros <-. unfold assign_where.
  induction mask as [|b mask IH]; [done|].
  simpl. f_equal; [by destruct b|done].
Qed.


Lemma Qmult_1_r_eq (q : Q) : (q * 1)%Q = q.
Proof.
  destruct q as [a b]. unfold Qmult; simpl. f_equal; [lia|].
  apply Pos.mul_1_r.
Qed.

(** With a factor of one the synthetic outcome is the outcome. *)
Lemma synthetic_one v xs :
  length v = length xs → synthetic 1 v xs = numeric xs.
Proof.
  intros Hl. unfold synthetic.
  replace ((λ q, q * 1)%Q <$> xs) with xs.
  2:{ rewrite <- (list_fmap_id xs) at 1. apply list_fmap_ext.
      intros j q Hj. by rewrite Qmult_1_r_eq. }
  apply list_eq. intros i. rewrite assign_where_lookup.
  destruct (numeric xs !! i) as [c|] eqn:E; simpl.
  - destruct (eq_scalar v 1 !! i) as [m|] eqn:Em; simpl; [by destruct m|].
    apply lookup_ge_None in Em. apply lookup_lt_Some in E.
    unfold eq_scalar, numeric in *. rewrite !length_fmap in *. lia.
  - by destruct (eq_scalar v 1 !! i).
Qed.

(** ** The statements of a replicate *)

Lemma loc_set_scalar_run df mask c old :
  cols df !! c = Some old →
  loc_set_scalar df mask c (CNum 1)
  = Ok (setitem df c (assign_where mask old (replicate (nrows df) (CNum 1)))).
Proof.
  intros H. unfold loc_set_scalar, loc_set, getitem. by rewrite H.
Qed.

(** Lines 88-89 leave the 0/1 labels of the mask in column [variant]. *)
Lemma label_rows_run variant df G :
  cols df !! "period_city" = Some G → length G = nrows df →
  zero_variant df ≫= label_rows variant
  = Ok (setitem df "variant" (cell_of_bool <$> isin G variant)).
Proof.
  intros HG Hl. unfold zero_variant, label_rows, setitem_scalar. simpl.
  unfold getitem. simpl. rewrite lookup_insert_ne by done. rewrite HG. simpl.
  erewrite loc_set_scalar_run by apply lookup_insert_eq.
  unfold setitem, nrows; simpl. rewrite insert_insert_eq.
  rewrite assign_where_scalars; [done|].
  unfold isin. by rewrite length_fmap.
Qed.

(** Lines 51-52 do the same from the index. *)
Lemma label_clusters_run variant_index df :
  zero_variant df ≫= label_clusters variant_index
  = Ok (setitem df "variant"
          (cell_of_bool <$> ((λ l, bool_decide (l ∈ variant_index)) <$> index df))).
Proof.
  unfold zero_variant, label_clusters, setitem_scalar. simpl.
  erewrite loc_set_scalar_run by apply lookup_insert_eq.
  unfold setitem, nrows; simpl. rewrite insert_insert_eq.
  rewrite assign_where_scalars; [done|]. by rewrite length_fmap.
Qed.

(** Lines 92-93 (and 56-57), when the outcome column is numeric. *)
Lemma scale_treated_run ov MDE df v xs :
  cols df !! ov = Some (numeric xs) → cols df !! "variant" = Some v →
  copy_outcome ov df ≫= scale_treated ov MDE
  = Ok (setitem df "outcome_sim" (synthetic MDE v xs)).
Proof.
  intros Hy Hv. unfold copy_outcome, scale_treated, getitem. rewrite Hy. simpl.
  assert (<["outcome_sim":=numeric xs]> (cols df) !! ov = Some (numeric xs)) as ->.
  { destruct (decide (ov = "outcome_sim")) as [->|];
      [apply lookup_insert_eq|by rewrite lookup_insert_ne]. }
  simpl. rewrite mul_scalar_numeric. simpl.
  rewrite lookup_insert_ne by done. rewrite Hv. simpl.
  unfold loc_set, getitem. simpl. rewrite lookup_insert_eq. simpl.
  unfold setitem; simpl. by rewrite insert_insert_eq.
Qed.

(** They succeed only on a numeric outcome column. *)
Lemma scale_treated_Ok ov MDE df df' :
  copy_outcome ov df ≫= scale_treated ov MDE = Ok df' →
  ∃ xs, cols df !! ov = Some (numeric xs).
Proof.
  intros H. apply result_bind_Ok in H as (df1 & H1 & H2).
  unfold copy_outcome in H1. apply result_bind_Ok in H1 as (y & Hy & [= <-]).
  apply getitem_Ok in Hy.
  unfold scale_treated in H2. apply result_bind_Ok in H2 as (y' & Hy' & H2).
  apply getitem_Ok in Hy'.
  assert (y' = y) as ->.
  { simpl in Hy'. destruct (decide (ov = "outcome_sim")) as [->|].
    - rewrite lookup_insert_eq in Hy'. congruence.
    - rewrite lookup_insert_ne in Hy' by done. congruence. }
  apply result_bind_Ok in H2 as (s & Hs & _).
  apply mul_scalar_Ok in Hs as [xs ->]. eauto.
Qed.

(** ** Sorting rows *)

Lemma insert_sorted_Permutation {A} (leb : A → A → bool) x l :
  insert_sorted leb x l ≡ₚ x :: l.
Proof.
  induction l as [|y l IH]; simpl; [done|].
  destruct (leb x y); [done|]. rewrite IH. apply Permutation_swap.
Qed.

Lemma isort_Permutation {A} (leb : A → A → bool) l : isort leb l ≡ₚ l.
Proof.
  induction l as [|x l IH]; simpl; [done|].
  rewrite insert_sorted_Permutation. by constructor.
Qed.

Lemma sort_perm_Permutation (keys : column) :
  sort_perm keys ≡ₚ seq 0 (length keys).
Proof.
  unfold sort_perm. rewrite isort_Permutation.
  rewrite snd_zip; [done|]. by rewrite length_seq.
Qed.

Lemma take_rows_fmap {A B} (f : A → B) pi (xs : list A) :
  take_rows pi (f <$> xs) = f <$> take_rows pi xs.
Proof.
  unfold take_rows. induction pi as [|i pi IH]; csimpl; [done|].
  rewrite list_lookup_fmap. destruct (xs !! i); csimpl; by rewrite IH.
Qed.

Lemma take_rows_seq_app {A} (pre xs : list A) :
  omap (λ i, (pre ++ xs) !! i) (seq (length pre) (length xs)) = xs.
Proof.
  revert pre. induction xs as [|x xs IH]; intros pre; csimpl; [done|].
  rewrite list_lookup_middle by done. csimpl. f_equal.
  specialize (IH (pre ++ [x])).
  rewrite length_app, Nat.add_comm, <- app_assoc in IH. exact IH.
Qed.

Lemma take_rows_seq {A} (xs : list A) :
  omap (λ i, xs !! i) (seq 0 (length xs)) = xs.
Proof. apply (take_rows_seq_app [] xs). Qed.

(** Sorting rearranges a column, and loses or repeats no row. *)
Lemma take_rows_Permutation {A} pi (xs : list A) :
  pi ≡ₚ seq 0 (length xs) → take_rows pi xs ≡ₚ xs.
Proof.
  intros H. unfold take_rows. rewrite H. by rewrite (take_rows_seq xs).
Qed.

Lemma length_take_rows {A} pi (xs : list A) :
  pi ≡ₚ seq 0 (length xs) → length (take_rows pi xs) = length xs.
Proof. intros H. by rewrite (take_rows_Permutation pi xs H). Qed.

Lemma take_rows_lookup {A} pi (xs : list A) i :
  pi ≡ₚ seq 0 (length xs) →
  take_rows pi xs !! i = pi !! i ≫= (λ j, xs !! j).
Proof.
  intros H.
  assert (Forall (λ j, is_Some (xs !! j)) pi) as Hin.
  { rewrite H. apply list.Forall_forall. intros j Hj.
    apply elem_of_seq in Hj. apply lookup_lt_is_Some. lia. }
  clear H. revert i. unfold take_rows.
  induction Hin as [|j pi [x Hx] _ IH]; intros i; csimpl; [done|].
  rewrite Hx. destruct i; csimpl; [done|]. apply IH.
Qed.

(** ** Groups *)

Lemma group_keys_Permutation keys : group_keys keys ≡ₚ remove_dups keys.
Proof. apply isort_Permutation. Qed.

Lemma NoDup_group_keys keys : NoDup (group_keys keys).
Proof. rewrite group_keys_Permutation. apply NoDup_remove_dups. Qed.

Lemma elem_of_group_keys keys k : k ∈ group_keys keys ↔ k ∈ keys.
Proof. rewrite group_keys_Permutation. apply elem_of_remove_dups. Qed.

Lemma length_group_keys keys : length (group_keys keys) = length (remove_dups keys).
Proof. by rewrite group_keys_Permutation. Qed.

Lemma group_number_lookup (groups : list label) i k :
  NoDup groups → groups !! i = Some k → group_number groups k = i.
Proof.
  intros Hnd Hi. unfold group_number.
  destruct (list_find (λ g, g = k) groups) as [[j g]|] eqn:E; simpl.
  - apply list_find_Some in E as (Hj & -> & _).
    eapply NoDup_lookup; eauto.
  - apply list_find_None in E. rewrite list.Forall_forall in E.
    destruct (E k); [|done]. eapply list_elem_of_lookup_2; eauto.
Qed.

(** Two keys of the data have the same group number only if they are equal. *)
Lemma group_number_inj keys k1 k2 :
  k1 ∈ keys → k2 ∈ keys →
  group_number (group_keys keys) k1 = group_number (group_keys keys) k2 →
  k1 = k2.
Proof.
  intros H1 H2 Heq.
  apply elem_of_group_keys, list_elem_of_lookup in H1 as [i1 H1].
  apply elem_of_group_keys, list_elem_of_lookup in H2 as [i2 H2].
  pose proof (NoDup_group_keys keys) as Hnd.
  rewrite (group_number_lookup _ _ _ Hnd H1) in Heq.
  rewrite (group_number_lookup _ _ _ Hnd H2) in Heq. subst. congruence.
Qed.

Lemma cell_of_nat_inj n m : cell_of_nat n = cell_of_nat m → n = m.
Proof. unfold cell_of_nat, inject_Z. intros [= H]. lia. Qed.

Lemma norm_cell_of_nat n : norm_cell (cell_of_nat n) = cell_of_nat n.
Proof. unfold cell_of_nat. simpl. by rewrite inject_Z_Qred. Qed.

(** ** Counting distinct values *)

Lemma length_remove_dups_Permutation `{EqDecision A} (l k : list A) :
  l ≡ₚ k → length (remove_dups l) = length (remove_dups k).
Proof.
  intros H. apply Permutation_length, NoDup_Permutation;
    [apply NoDup_remove_dups..|].
  intros x. rewrite !elem_of_remove_dups. by rewrite H.
Qed.

Lemma length_remove_dups_fmap `{EqDecision A, EqDecision B} (f : A → B) (l : list A) :
  (∀ x y, x ∈ l → y ∈ l → f x = f y → x = y) →
  length (remove_dups (f <$> l)) = length (remove_dups l).
Proof.
  intros Hinj. rewrite <- (length_fmap f (remove_dups l)).
  apply Permutation_length, NoDup_Permutation.
  - apply NoDup_remove_dups.
  - apply NoDup_fmap_2_strong; [|apply NoDup_remove_dups].
    intros x y Hx Hy. apply Hinj; by apply elem_of_remove_dups.
  - intros y. rewrite elem_of_remove_dups, !list_elem_of_fmap.
    by setoid_rewrite elem_of_remove_dups.
Qed.

(** ** Preparing the data *)

Lemma select_picks df cs picked :
  mapM (λ c, col ← getitem df c; Ok (c, col)) cs = Ok picked →
  picked.*1 = cs ∧ Forall (λ p, cols df !! p.1 = Some p.2) picked.
Proof.
  revert picked. induction cs as [|c cs IH]; intros picked; simpl.
  - intros [= <-]. by split.
  - intros H. apply result_bind_Ok in H as ([c' col] & H1 & H2).
    apply result_bind_Ok in H1 as (col' & Hc & [= <- <-]).
    apply result_bind_Ok in H2 as (rest & H2 & [= <-]).
    apply getitem_Ok in Hc. destruct (IH _ H2) as [IH1 IH2].
    split; [simpl; by f_equal|by constructor].
Qed.

Lemma select_picks_run df cs :
  (∀ c, c ∈ cs → is_Some (cols df !! c)) →
  ∃ picked, mapM (λ c, col ← getitem df c; Ok (c, col)) cs = Ok picked.
Proof.
  induction cs as [|c cs IH]; intros H; simpl; [by eexists|].
  destruct (H c) as [col Hc]; [by left|].
  destruct IH as [rest Hr]; [intros c' Hc'; apply H; by right|].
  rewrite Hr. unfold getitem. rewrite Hc. simpl. by eexists.
Qed.

(** [df[cs]] holds the listed columns, as they are in [df], and no other. *)
Lemma select_Ok df cs P :
  select df cs = Ok P →
  NoDup cs ∧ index P = index df ∧
  ∀ c, cols P !! c = if decide (c ∈ cs) then cols df !! c else None.
Proof.
  unfold select. destruct (decide (NoDup cs)) as [Hnd|]; [|discriminate].
  intros H. apply result_bind_Ok in H as (picked & Hp & [= <-]).
  apply select_picks in Hp as [Hfst Hall].
  split; [done|]. split; [done|]. intros c. simpl.
  destruct (decide (c ∈ cs)) as [Hin|Hout].
  - rewrite <- Hfst in Hin. apply list_elem_of_fmap in Hin as ([c' col] & -> & Hin).
    rewrite list.Forall_forall in Hall. rewrite (Hall _ Hin). simpl.
    apply elem_of_list_to_map_1; [by rewrite Hfst|done].
  - apply not_elem_of_list_to_map_1. by rewrite Hfst.
Qed.

Lemma select_run df cs :
  NoDup cs → (∀ c, c ∈ cs → is_Some (cols df !! c)) →
  ∃ P, select df cs = Ok P.
Proof.
  intros Hnd Hin. unfold select. rewrite decide_True by done.
  destruct (select_picks_run df cs Hin) as [picked ->]. by eexists.
Qed.

Lemma select_wf df cs P : frame_wf df → select df cs = Ok P → frame_wf P.
Proof.
  intros Hwf H. apply select_Ok in H as (_ & Hidx & Hc).
  intros c col. rewrite Hc. unfold nrows. rewrite Hidx.
  case_decide; [apply Hwf|done].
Qed.

Lemma setitem_wf df c col :
  frame_wf df → length col = nrows df → frame_wf (setitem df c col).
Proof.
  intros Hwf Hl c' col'. unfold setitem, nrows; simpl.
  destruct (decide (c = c')) as [<-|Hne].
  - rewrite lookup_insert_eq. by intros [= <-].
  - rewrite lookup_insert_ne by done. apply Hwf.
Qed.

Lemma row_keys_Ok floor tf times locations keys :
  row_keys floor tf times locations = Ok keys →
  length keys = (length times `min` length locations)%nat.
Proof.
  unfold row_keys. intros H. apply of_option_Ok, length_mapM in H.
  by rewrite <- H, length_zip.
Qed.


Lemma sort_values_Ok df by_ df' :
  frame_wf df → sort_values df by_ = Ok df' →
  ∃ keys, cols df !! by_ = Some keys ∧
    index df' = take_rows (sort_perm keys) (index df) ∧
    cols df' = take_rows (sort_perm keys) <$> cols df ∧
    nrows df' = nrows df ∧ frame_wf df'.
Proof.
  intros Hwf H. unfold sort_values in H.
  apply result_bind_Ok in H as (keys & Hk & [= <-]). apply getitem_Ok in Hk.
  exists keys. simpl. split; [done|]. split; [done|]. split; [done|].
  pose proof (Hwf _ _ Hk) as Hlen.
  assert (nrows (Frame (take_rows (sort_perm keys) (index df))
                   (take_rows (sort_perm keys) <$> cols df)) = nrows df) as Hn.
  { unfold nrows; simpl. apply length_take_rows.
    rewrite sort_perm_Permutation. by rewrite Hlen. }
  split; [done|]. intros c col. rewrite Hn. simpl. rewrite lookup_fmap.
  destruct (cols df !! c) as [col0|] eqn:E; simpl; [|done].
  intros [= <-]. rewrite length_take_rows; [by apply Hwf in E|].
  rewrite sort_perm_Permutation. apply Hwf in E. by rewrite Hlen, E.
Qed.

Section Loops.
Variable fit : fit_request → option num.

Lemma call_fit_Ok name req w p w' :
  call_fit fit name req w = (Ok p, w') →
  fit req = Some p ∧
  w' = World (heap w) (coins w) (drawn w)
         (trace w ++ [EFit name "variant" "variant" req]).
Proof. unfold call_fit. intros [= H <-]. by apply of_option_Ok in H. Qed.

Lemma update_bind_Ok {B} r f (k : M B) w df b w' :
  heap w !! r = Some df →
  (update r f;; k) w = (Ok b, w') →
  ∃ df', f df = Ok df' ∧ k (set_heap w (<[r := df']> (heap w))) = (Ok b, w').
Proof.
  intros Hr H. apply bind_Ok in H as (u & w1 & Hu & Hk).
  apply update_Ok in Hu as (df0 & df' & Hr' & Hf & ->).
  rewrite Hr in Hr'. injection Hr' as <-. eauto.
Qed.

(** The four statements of a replicate, run one after the other on the
    object [r]. *)
Lemma replicate_frame_Ok {B} r label_step ov MDE (k : M B) w df b w' :
  heap w !! r = Some df →
  (update r zero_variant;; update r label_step;;
   update r (copy_outcome ov);; update r (scale_treated ov MDE);; k) w
    = (Ok b, w') →
  ∃ df', replicate_frame label_step ov MDE df = Ok df' ∧
         k (set_heap w (<[r := df']> (heap w))) = (Ok b, w').
Proof.
  intros Hr H.
  eapply update_bind_Ok in H as (df1 & H1 & H); [|done].
  eapply update_bind_Ok in H as (df2 & H2 & H); [|apply lookup_insert_eq].
  eapply update_bind_Ok in H as (df3 & H3 & H); [|apply lookup_insert_eq].
  eapply update_bind_Ok in H as (df4 & H4 & H); [|apply lookup_insert_eq].
  exists df4. unfold replicate_frame. rewrite H1; simpl. rewrite H2; simpl.
  rewrite H3; simpl. split; [done|].
  unfold set_heap in *; simpl in *. by rewrite !insert_insert_eq in H.
Qed.

Lemma fits_order_Ok {B} r ov method (k : num * num → M B) w df b w' :
  heap w !! r = Some df →
  ((if decide (method = "ols") then
      df ← read r;
      y ← lift (getitem df ov);
      v ← lift (getitem df "variant");
      g ← lift (getitem df "period_city");
      p_value_AA ← call_fit fit ov (OLS y true v (ClusterRobust g));
      df ← read r;
      y_sim ← lift (getitem df "outcome_sim");
      v ← lift (getitem df "variant");
      g ← lift (getitem df "period_city");
      p_value_AB ← call_fit fit "outcome_sim" (OLS y_sim true v (ClusterRobust g));
      mret (p_value_AA, p_value_AB)
    else if decide (method = "mlm") then
      df ← read r;
      y ← lift (getitem df ov);
      v ← lift (getitem df "variant");
      g ← lift (getitem df "period_city");
      p_value_AA ← call_fit fit ov (MixedLM y true v g);
      df ← read r;
      y_sim ← lift (getitem df "outcome_sim");
      v ← lift (getitem df "variant");
      g ← lift (getitem df "period_city");
      p_value_AB ← call_fit fit "outcome_sim" (MixedLM y_sim true v g);
      mret (p_value_AA, p_value_AB)
    else raise (NameError "p_value_AA")) ≫= k) w = (Ok b, w') →
  ∃ y v g y_sim pAA pAB,
    cols df !! ov = Some y ∧ cols df !! "variant" = Some v ∧
    cols df !! "period_city" = Some g ∧ cols df !! "outcome_sim" = Some y_sim ∧
    fit (build_order method y v g) = Some pAA ∧
    fit (build_order method y_sim v g) = Some pAB ∧
    k (pAA, pAB)
      (World (heap w) (coins w) (drawn w)
         (trace w ++ [EFit ov "variant" "variant" (build_order method y v g);
                      EFit "outcome_sim" "variant" "variant"
                        (build_order method y_sim v g)]))
    = (Ok b, w').
Proof.
  intros Hr H. apply bind_Ok in H as ([pAA pAB] & w1 & H & Hk).
  unfold build_order.
  destruct (decide (method = "ols")) as [Hm|Hm];
    [|destruct (decide (method = "mlm")) as [Hm'|Hm']; [|discriminate]].
  all: apply bind_Ok in H as (df1 & ? & [Hd ->]%read_Ok & H);
    rewrite Hr in Hd; injection Hd as <-;
    apply bind_Ok in H as (y & ? & [Hy ->]%lift_Ok & H);
    apply bind_Ok in H as (v & ? & [Hv ->]%lift_Ok & H);
    apply bind_Ok in H as (g & ? & [Hg ->]%lift_Ok & H);
    apply bind_Ok in H as (p1 & ? & [Hp1 ->]%call_fit_Ok & H);
    apply bind_Ok in H as (df2 & ? & [Hd ->]%read_Ok & H);
    simpl in Hd; rewrite Hr in Hd; injection Hd as <-;
    apply bind_Ok in H as (ys & ? & [Hys ->]%lift_Ok & H);
    apply bind_Ok in H as (v' & ? & [Hv' ->]%lift_Ok & H);
    apply bind_Ok in H as (g' & ? & [Hg' ->]%lift_Ok & H);
    apply bind_Ok in H as (p2 & ? & [Hp2 ->]%call_fit_Ok & H);
    injection H as <- <- <-;
    apply getitem_Ok in Hy, Hv, Hg, Hys, Hv', Hg';
    rewrite Hv in Hv'; injection Hv' as <-;
    rewrite Hg in Hg'; injection Hg' as <-;
    exists y, v, g, ys, p1, p2; simpl in *;
    rewrite <- app_assoc in Hk; simpl in Hk; done.
Qed.

Lemma binomial_run n p size w :
  binomial n p size w =
    (Ok ((λ i, coins w (drawn w + i)%nat) <$> seq 0 size),
     World (heap w) (coins w) (drawn w + size)%nat
       (trace w ++ [EDraw n p ((λ i, coins w (drawn w + i)%nat) <$> seq 0 size)])).
Proof. done. Qed.

(** What [n] iterations of the order-level loop do, when they all
    succeed: [n] replicates, each a step from the frame left by the one
    before.  [Inv] is any property of the frame the steps keep, [Q] any
    property of a replicate they establish. *)
Lemma loop_order_Ok (Inv : frame → Prop) (Good : rep → Prop) U ov MDE method alpha :
  (∀ df rp df', Inv df → order_step U ov MDE method df rp df' → Inv df' ∧ Good rp) →
  ∀ n data AA AB w df res w',
    heap w !! data = Some df → Inv df →
    loop_order fit n data U ov MDE method alpha AA AB w = (Ok res, w') →
    ∃ rs df',
      length rs = n ∧ Forall Good rs ∧ Inv df' ∧
      Forall (λ r, is_Some (fit (rep_AA r)) ∧ is_Some (fit (rep_AB r))) rs ∧
      heap w' = <[data := df']> (heap w) ∧ coins w' = coins w ∧
      drawn w' = (drawn w + n * length U)%nat ∧
      trace w' = trace w ++ (rs ≫= rep_events ov) ∧
      res = (AA ++ ((λ r, indicator fit alpha (rep_AA r)) <$> rs),
             AB ++ ((λ r, indicator fit alpha (rep_AB r)) <$> rs)).
Proof.
  intros Hstep n. induction n as [|n IH]; intros data AA AB w df res w' Hr HI H.
  - injection H as <- <-. exists [], df. simpl.
    rewrite !app_nil_r, insert_id by done. repeat split; done.
  - cbn [loop_order] in H. rewrite (bind_run _ _ _ _ _ (binomial_run _ _ _ _)) in H.
    set (bits := (λ i, coins w (drawn w + i)%nat) <$> seq 0 (length U)) in *.
    eapply replicate_frame_Ok in H as (df' & Hf & H); [|exact Hr].
    eapply fits_order_Ok in H as (y & v & g & ys & pAA & pAB & Hy & Hv & Hg & Hys & HpA & HpB & H);
      [|simpl; apply lookup_insert_eq].
    set (rp := Rep bits (build_order method y v g) (build_order method ys v g)).
    destruct (Hstep df rp df') as [HI' HQ]; [done| |].
    { split; [subst bits; simpl; by rewrite length_fmap, length_seq|].
      split; [done|]. exists y, v, g, ys. done. }
    eapply IH in H as (rs & df'' & Hlen & HQs & HI'' & Hfits & Hheap & Hcoins & Hdrawn & Htrace & ->);
      [|simpl; apply lookup_insert_eq|done].
    simpl in *. exists (rp :: rs), df''.
    split; [simpl; by f_equal|]. split; [by constructor|]. split; [done|].
    split; [constructor; [split; simpl; eauto|done]|].
    split; [by rewrite Hheap, insert_insert_eq|]. split; [done|].
    split; [lia|]. split.
    + rewrite Htrace. simpl. by rewrite <- !app_assoc.
    + assert (indicator fit alpha (rep_AA rp) = significant pAA alpha) as EA
        by (unfold indicator; simpl; by rewrite HpA).
      assert (indicator fit alpha (rep_AB rp) = significant pAB alpha) as EB
        by (unfold indicator; simpl; by rewrite HpB).
      rewrite !fmap_cons. cbv beta. rewrite EA, EB.
      by rewrite <- !app_assoc.
Qed.

Lemma body_agg_Ok {B} r ov MDE method variant_index (k : num * num → M B)
    w df b w' :
  heap w !! r = Some df →
  (update r zero_variant;;
   update r (label_clusters variant_index);;
   pp ← (if decide (method = "ols") then
           update r (copy_outcome ov);;
           update r (scale_treated ov MDE);;
           df ← read r;
           y ← lift (getitem df ov);
           v ← lift (getitem df "variant");
           p_value_AA ← call_fit fit ov (OLS y true v NonRobust);
           df ← read r;
           y_sim ← lift (getitem df "outcome_sim");
           v ← lift (getitem df "variant");
           p_value_AB ← call_fit fit "outcome_sim" (OLS y_sim true v NonRobust);
           mret (p_value_AA, p_value_AB)
         else if decide (method = "mlm") then
           raise (ConfigError "Aggregation not supported for method mlm")
         else raise (NameError "p_value_AA"));
   k pp) w = (Ok b, w') →
  ∃ df' y v y_sim pAA pAB,
    method = "ols" ∧
    replicate_frame (label_clusters variant_index) ov MDE df = Ok df' ∧
    cols df' !! ov = Some y ∧ cols df' !! "variant" = Some v ∧
    cols df' !! "outcome_sim" = Some y_sim ∧
    fit (OLS y true v NonRobust) = Some pAA ∧
    fit (OLS y_sim true v NonRobust) = Some pAB ∧
    k (pAA, pAB)
      (World (<[r := df']> (heap w)) (coins w) (drawn w)
         (trace w ++ [EFit ov "variant" "variant" (OLS y true v NonRobust);
                      EFit "outcome_sim" "variant" "variant"
                        (OLS y_sim true v NonRobust)]))
    = (Ok b, w').
Proof.
  intros Hr H.
  eapply update_bind_Ok in H as (df1 & H1 & H); [|done].
  eapply update_bind_Ok in H as (df2 & H2 & H); [|apply lookup_insert_eq].
  apply bind_Ok in H as ([pAA pAB] & w1 & H & Hk).
  destruct (decide (method = "ols")) as [Hm|Hm];
    [|destruct (decide (method = "mlm")); discriminate].
  eapply update_bind_Ok in H as (df3 & H3 & H); [|apply lookup_insert_eq].
  eapply update_bind_Ok in H as (df4 & H4 & H); [|apply lookup_insert_eq].
  unfold set_heap in H; simpl in H. rewrite !insert_insert_eq in H.
  apply bind_Ok in H as (d & ? & [Hd ->]%read_Ok & H).
  simpl in Hd. rewrite lookup_insert_eq in Hd. injection Hd as <-.
  apply bind_Ok in H as (y & ? & [Hy ->]%lift_Ok & H).
  apply bind_Ok in H as (v & ? & [Hv ->]%lift_Ok & H).
  apply bind_Ok in H as (p1 & ? & [Hp1 ->]%call_fit_Ok & H).
  apply bind_Ok in H as (d & ? & [Hd ->]%read_Ok & H).
  simpl in Hd. rewrite lookup_insert_eq in Hd. injection Hd as <-.
  apply bind_Ok in H as (ys & ? & [Hys ->]%lift_Ok & H).
  apply bind_Ok in H as (v' & ? & [Hv' ->]%lift_Ok & H).
  apply bind_Ok in H as (p2 & ? & [Hp2 ->]%call_fit_Ok & H).
  injection H as <- <- <-.
  apply getitem_Ok in Hy, Hv, Hys, Hv'.
  rewrite Hv in Hv'. injection Hv' as <-.
  exists df4, y, v, ys, p1, p2. split; [done|].
  split; [unfold replicate_frame; rewrite H1; simpl; rewrite H2; simpl;
          by rewrite H3|].
  simpl in Hk. rewrite <- app_assoc in Hk. done.
Qed.

Lemma loc_set_index df mask c new df' :
  loc_set df mask c new = Ok df' → index df' = index df.
Proof.
  unfold loc_set. intros H. by apply result_bind_Ok in H as (old & _ & [= <-]).
Qed.

Lemma replicate_frame_agg_index vi ov MDE df df' :
  replicate_frame (label_clusters vi) ov MDE df = Ok df' → index df' = index df.
Proof.
  unfold replicate_frame. intros H.
  apply result_bind_Ok in H as (df1 & [= <-] & H).
  apply result_bind_Ok in H as (df2 & H2 & H).
  apply result_bind_Ok in H as (df3 & H3 & H).
  apply loc_set_index in H2.
  unfold copy_outcome in H3. apply result_bind_Ok in H3 as (y & _ & [= <-]).
  unfold scale_treated in H. apply result_bind_Ok in H as (y' & _ & H).
  apply result_bind_Ok in H as (s & _ & H).
  apply result_bind_Ok in H as (v & _ & H).
  apply loc_set_index in H. by rewrite H.
Qed.

(** The same for the aggregated loop; it runs with method ols only. *)
Lemma loop_agg_Ok (Inv : frame → Prop) (Good : rep → Prop) ov MDE method alpha :
  (∀ df rp df', Inv df → agg_step ov MDE df rp df' → Inv df' ∧ Good rp) →
  ∀ n data AA AB w df res w',
    heap w !! data = Some df → Inv df →
    loop_agg fit n data ov MDE method alpha AA AB w = (Ok res, w') →
    ∃ rs df',
      length rs = n ∧ Forall Good rs ∧ Inv df' ∧
      Forall (λ r, is_Some (fit (rep_AA r)) ∧ is_Some (fit (rep_AB r))) rs ∧
      heap w' = <[data := df']> (heap w) ∧ coins w' = coins w ∧
      nrows df' = nrows df ∧
      drawn w' = (drawn w + n * nrows df)%nat ∧
      trace w' = trace w ++ (rs ≫= rep_events ov) ∧
      res = (AA ++ ((λ r, indicator fit alpha (rep_AA r)) <$> rs),
             AB ++ ((λ r, indicator fit alpha (rep_AB r)) <$> rs)).
Proof.
  intros Hstep n. induction n as [|n IH]; intros data AA AB w df res w' Hr HI H.
  - injection H as <- <-. exists [], df. simpl.
    rewrite !app_nil_r, insert_id by done. repeat split; done.
  - cbn [loop_agg] in H.
    rewrite (bind_run _ _ _ _ _ (read_run _ _ _ Hr)) in H.
    rewrite (bind_run _ _ _ _ _ (binomial_run _ _ _ _)) in H.
    set (bits := (λ i, coins w (drawn w + i)%nat) <$> seq 0 (nrows df)) in *.
    eapply body_agg_Ok in H
      as (df' & y & v & ys & pAA & pAB & Hm & Hf & Hy & Hv & Hys & HpA & HpB & H);
      [|exact Hr].
    set (rp := Rep bits (OLS y true v NonRobust) (OLS ys true v NonRobust)).
    destruct (Hstep df rp df') as [HI' HQ]; [done| |].
    { split; [subst bits; simpl; by rewrite length_fmap, length_seq|].
      split; [done|]. exists y, v, ys. done. }
    assert (nrows df' = nrows df) as Hn.
    { unfold nrows. by rewrite (replicate_frame_agg_index _ _ _ _ _ Hf). }
    eapply IH in H as (rs & df'' & Hlen & HQs & HI'' & Hfits & Hheap & Hcoins & Hn' & Hdrawn & Htrace & ->);
      [|simpl; apply lookup_insert_eq|done].
    simpl in *. exists (rp :: rs), df''.
    split; [simpl; by f_equal|]. split; [by constructor|]. split; [done|].
    split; [constructor; [split; simpl; eauto|done]|].
    split; [by rewrite Hheap, insert_insert_eq|]. split; [done|].
    split; [congruence|].
    split; [rewrite Hdrawn, Hn; lia|]. split.
    + rewrite Htrace. simpl. by rewrite <- !app_assoc.
    + assert (indicator fit alpha (rep_AA rp) = significant pAA alpha) as EA
        by (unfold indicator; simpl; by rewrite HpA).
      assert (indicator fit alpha (rep_AB rp) = significant pAB alpha) as EB
        by (unfold indicator; simpl; by rewrite HpB).
      rewrite !fmap_cons. cbv beta. rewrite EA, EB.
      by rewrite <- !app_assoc.
Qed.
End Loops.

Section Anatomy.
Variable to_datetime : cell → option Z.
Variable bucketing : string → option (Z → Z).
Variable fit : fit_request → option num.

(** A successful order-level run: the frame is prepared in a new object,
    then the loop runs on it. *)
Lemma ModelQuality_order_Ok data tv lv ov F cv MDE sims method w src res w' :
  heap w !! data = Some src →
  ModelQuality to_datetime bucketing fit data tv lv ov F cv MDE sims method false w
    = (Ok res, w') →
  ∃ r df0 G AA AB,
    method ∈ ["ols"; "mlm"] ∧
    order_frame to_datetime bucketing src (columns_of tv lv ov cv) tv lv ov F = Ok df0 ∧
    cols df0 !! "period_city" = Some G ∧
    (r ∉ dom (heap w)) ∧
    loop_order fit (Z.to_nat sims) r (unique G) ov MDE method (5 # 100) [] []
      (set_heap w (<[r := df0]> (heap w))) = (Ok (AA, AB), w') ∧
    res = [np_mean AA; np_mean AB].
Proof.
  intros Hsrc H. unfold ModelQuality in H.
  case_bool_decide as Hm; [discriminate|]. simpl in H.
  apply bind_Ok in H as (src' & ? & [Hd ->]%read_Ok & H).
  rewrite Hsrc in Hd. injection Hd as <-.
  apply bind_Ok in H as (picked & ? & [Hsel ->]%lift_Ok & H).
  apply bind_Ok in H as (r & w1 & [Hr ->]%alloc_Ok & H).
  eapply update_bind_Ok in H as (copy & Hcopy & H); [|apply lookup_insert_eq].
  apply bind_Ok in H as ([AA AB] & w2 & H & [= <- <-]).
  eapply update_bind_Ok in H as (numbered & Hnum & H); [|apply lookup_insert_eq].
  eapply update_bind_Ok in H as (df0 & Hsort & H); [|apply lookup_insert_eq].
  apply bind_Ok in H as (d & ? & [Hd ->]%read_Ok & H).
  simpl in Hd. rewrite lookup_insert_eq in Hd. injection Hd as <-.
  apply bind_Ok in H as (G & ? & [HG ->]%lift_Ok & H).
  apply getitem_Ok in HG.
  unfold set_heap in H; simpl in H. rewrite !insert_insert_eq in H.
  exists r, df0, G, AA, AB.
  split; [by destruct (decide (method ∈ ["ols"; "mlm"]))|].
  split; [|split; [done|split; [done|split; [exact H|done]]]].
  unfold order_frame, private_copy, columns_of. simpl.
  rewrite Hsel; simpl. rewrite Hcopy; simpl. by rewrite Hnum.
Qed.

(** A successful aggregated run: the private copy and the aggregated
    frame are two new objects; the loop runs on the second. *)
Lemma ModelQuality_agg_Ok data tv lv ov F cv MDE sims method w src res w' :
  heap w !! data = Some src →
  ModelQuality to_datetime bucketing fit data tv lv ov F cv MDE sims method true w
    = (Ok res, w') →
  ∃ r1 r2 copy dfa AA AB,
    method = "ols" ∧
    private_copy to_datetime src (columns_of tv lv ov cv) tv = Ok copy ∧
    agg_frame to_datetime bucketing src (columns_of tv lv ov cv) tv lv F = Ok dfa ∧
    (r1 ∉ dom (heap w)) ∧ (r2 ∉ dom (heap w)) ∧ r1 ≠ r2 ∧
    loop_agg fit (Z.to_nat sims) r2 ov MDE method (5 # 100) [] []
      (set_heap w (<[r2 := dfa]> (<[r1 := copy]> (heap w)))) = (Ok (AA, AB), w') ∧
    res = [np_mean AA; np_mean AB].
Proof.
  intros Hsrc H. unfold ModelQuality in H.
  case_bool_decide as Hm; [discriminate|]. simpl in H.
  case_bool_decide as Hm'; [discriminate|].
  apply bind_Ok in H as (src' & ? & [Hd ->]%read_Ok & H).
  rewrite Hsrc in Hd. injection Hd as <-.
  apply bind_Ok in H as (picked & ? & [Hsel ->]%lift_Ok & H).
  apply bind_Ok in H as (r1 & w1 & [Hr1 ->]%alloc_Ok & H).
  eapply update_bind_Ok in H as (copy & Hcopy & H); [|apply lookup_insert_eq].
  apply bind_Ok in H as ([AA AB] & w2 & H & [= <- <-]).
  apply bind_Ok in H as (d & ? & [Hd ->]%read_Ok & H).
  simpl in Hd. rewrite lookup_insert_eq in Hd. injection Hd as <-.
  apply bind_Ok in H as (dfa & ? & [Hagg ->]%lift_Ok & H).
  apply bind_Ok in H as (r2 & w3 & [Hr2 ->]%alloc_Ok & H).
  unfold set_heap in *; simpl in *. rewrite insert_insert_eq in *.
  exists r1, r2, copy, dfa, AA, AB.
  assert (method = "ols") as Hols.
  { destruct (decide (method ∈ ["ols"; "mlm"])) as [Hin|]; [|done].
    set_solver. }
  split; [done|].
  assert (private_copy to_datetime src (columns_of tv lv ov cv) tv = Ok copy) as Hpc.
  { unfold private_copy, columns_of. simpl. by rewrite Hsel. }
  split; [done|]. split; [unfold agg_frame; by rewrite Hpc|].
  split; [done|]. rewrite dom_insert in Hr2.
  split; [set_solver|]. split; [set_solver|]. split; [exact H|done].
Qed.
End Anatomy.

Lemma columns_of_NoDup tv lv ov cv :
  NoDup (columns_of tv lv ov cv) →
  tv ≠ lv ∧ tv ≠ ov ∧ lv ≠ ov ∧
  tv ∈ columns_of tv lv ov cv ∧ lv ∈ columns_of tv lv ov cv ∧
  ov ∈ columns_of tv lv ov cv.
Proof.
  unfold columns_of. simpl. intros H.
  apply list.NoDup_cons in H as [H1 H]. apply list.NoDup_cons in H as [H2 _].
  rewrite !elem_of_cons in H1. rewrite !elem_of_cons in H2.
  rewrite !elem_of_cons. naive_solver.
Qed.

Section Prepared.
Variable to_datetime : cell → option Z.
Variable bucketing : string → option (Z → Z).

Lemma private_copy_Ok src cs tv copy :
  private_copy to_datetime src cs tv = Ok copy →
  NoDup cs ∧ tv ∈ cs ∧ index copy = index src ∧
  ∃ raw times,
    cols src !! tv = Some raw ∧ mapM to_datetime raw = Some times ∧
    cols copy !! tv = Some (CTime <$> times) ∧
    ∀ c, c ≠ tv →
      cols copy !! c = if decide (c ∈ cs) then cols src !! c else None.
Proof.
  unfold private_copy. intros H.
  apply result_bind_Ok in H as (picked & Hsel & H).
  apply select_Ok in Hsel as (Hnd & Hidx & Hcols).
  unfold convert_time in H.
  apply result_bind_Ok in H as (raw & Hraw & H). apply getitem_Ok in Hraw.
  apply result_bind_Ok in H as (times & Ht & [= <-]). apply of_option_Ok in Ht.
  rewrite Hcols in Hraw. case_decide as Htv; [|done].
  split; [done|]. split; [done|]. split; [done|].
  exists raw, times. split; [done|]. split; [done|]. simpl.
  split; [apply lookup_insert_eq|].
  intros c Hc. rewrite lookup_insert_ne by done. apply Hcols.
Qed.

Lemma private_copy_wf src cs tv copy :
  frame_wf src → private_copy to_datetime src cs tv = Ok copy → frame_wf copy.
Proof.
  intros Hwf H. pose proof H as (Hnd & Htv & Hidx & raw & times & Hraw & Ht & Hc & Hother)%private_copy_Ok.
  intros c col. unfold nrows. rewrite Hidx.
  destruct (decide (c = tv)) as [->|Hne].
  - rewrite Hc. intros [= <-]. rewrite length_fmap.
    apply length_mapM in Ht. rewrite <- Ht. by apply Hwf in Hraw.
  - rewrite Hother by done. case_decide; [apply Hwf|done].
Qed.

Lemma private_copy_run src cs tv raw times :
  NoDup cs → tv ∈ cs → (∀ c, c ∈ cs → is_Some (cols src !! c)) →
  cols src !! tv = Some raw → mapM to_datetime raw = Some times →
  ∃ copy, private_copy to_datetime src cs tv = Ok copy.
Proof.
  intros Hnd Htv Hall Hraw Ht. unfold private_copy.
  destruct (select_run src cs Hnd Hall) as [picked Hsel]. rewrite Hsel. simpl.
  apply select_Ok in Hsel as (_ & _ & Hcols).
  unfold convert_time, getitem. rewrite Hcols, decide_True, Hraw by done.
  simpl. rewrite Ht. simpl. by eexists.
Qed.

Section Columns.
Context (src : frame) (tv lv ov F : string) (cv : option (list string)).
Let cs := columns_of tv lv ov cv.
Hypothesis Hwf : frame_wf src.

(** The private copy has the keys of the caller's observations. *)
Lemma private_copy_keys copy tf :
  private_copy to_datetime src cs tv = Ok copy →
  ∀ floor times locations keys,
    bucketing F = Some floor →
    cols copy !! tv = Some times → cols copy !! lv = Some locations →
    row_keys floor tf times locations = Ok keys →
    observation_keys to_datetime bucketing src tv lv F tf = Ok keys ∧
    length keys = nrows src.
Proof.
  intros H floor times locations keys Hfl Ht Hl Hk.
  pose proof (private_copy_wf _ _ _ _ Hwf H) as Hwf'.
  apply private_copy_Ok in H as (Hnd & _ & Hidx & raw & ts & Hraw & Hts & Hc & Ho).
  apply columns_of_NoDup in Hnd as (Hne & _ & _ & _ & Hlv & _).
  split.
  - unfold observation_keys, getitem. rewrite Hfl, Hraw. simpl.
    rewrite Hts. simpl. rewrite Hc in Ht. injection Ht as <-.
    rewrite Ho, decide_True in Hl by done. by rewrite Hl.
  - apply row_keys_Ok in Hk. rewrite Hk.
    apply Hwf' in Ht, Hl. rewrite Ht, Hl. unfold nrows. rewrite Hidx. lia.
Qed.

Lemma order_frame_Ok df0 :
  order_frame to_datetime bucketing src cs tv lv ov F = Ok df0 →
  ∃ keys,
    NoDup cs ∧
    observation_keys to_datetime bucketing src tv lv F true = Ok keys ∧
    length keys = nrows src ∧
    index df0 = take_rows (row_order keys) (index src) ∧
    nrows df0 = nrows src ∧ frame_wf df0 ∧
    cols df0 !! "period_city"
      = Some (cluster_id keys <$> take_rows (row_order keys) keys) ∧
    (∀ c, c ≠ "period_city" → c ≠ tv →
       cols df0 !! c =
         if decide (c ∈ cs) then take_rows (row_order keys) <$> cols src !! c
         else None).
Proof.
  unfold order_frame. intros H.
  apply result_bind_Ok in H as (copy & Hcopy & H).
  apply result_bind_Ok in H as (numbered & Hnum & Hsort).
  pose proof (private_copy_wf _ _ _ _ Hwf Hcopy) as Hwfc.
  unfold assign_period_city in Hnum.
  apply result_bind_Ok in Hnum as (floor & Hfl & Hnum). apply of_option_Ok in Hfl.
  apply result_bind_Ok in Hnum as (times & Ht & Hnum). apply getitem_Ok in Ht.
  apply result_bind_Ok in Hnum as (locs & Hl & Hnum). apply getitem_Ok in Hl.
  apply result_bind_Ok in Hnum as (keys & Hk & Hnum).
  apply result_bind_Ok in Hnum as (y & _ & [= <-]).
  destruct (private_copy_keys copy true Hcopy floor times locs keys) as [Hobs Hlen];
    [done..|].
  exists keys.
  split; [by apply private_copy_Ok in Hcopy as (? & _)|].
  split; [done|]. split; [done|].
  assert (frame_wf (setitem copy "period_city"
            ((λ k, cell_of_nat (group_number (group_keys keys) k)) <$> keys))) as Hwfn.
  { apply setitem_wf; [done|]. rewrite length_fmap, Hlen.
    apply private_copy_Ok in Hcopy as (_ & _ & Hidx & _). unfold nrows.
    by rewrite Hidx. }
  apply sort_values_Ok in Hsort as (G & HG & Hidx & Hcols & Hn & Hwf0); [|done].
  simpl in HG. rewrite lookup_insert_eq in HG. injection HG as <-.
  apply private_copy_Ok in Hcopy as (_ & _ & Hidxc & _ & _ & _ & _ & _ & Ho).
  simpl in Hidx. unfold nrows in Hn at 2. simpl in Hn.
  split; [by rewrite Hidx, Hidxc|].
  split; [rewrite Hn; unfold nrows; by rewrite Hidxc|].
  split; [done|]. rewrite Hcols. simpl. split.
  - rewrite lookup_fmap, lookup_insert_eq. simpl. by rewrite take_rows_fmap.
  - intros c Hc1 Hc2. rewrite lookup_fmap, lookup_insert_ne by done.
    rewrite Ho by done. by case_decide.
Qed.

Lemma agg_frame_Ok dfa :
  agg_frame to_datetime bucketing src cs tv lv F = Ok dfa →
  ∃ keys,
    NoDup cs ∧
    observation_keys to_datetime bucketing src tv lv F false = Ok keys ∧
    length keys = nrows src ∧
    index dfa = group_keys keys ∧ frame_wf dfa ∧
    ∀ c, cols dfa !! c =
           if decide (c ∈ cs ∧ c ≠ tv ∧ c ≠ lv)
           then cols src !! c ≫= group_mean keys (group_keys keys)
           else None.
Proof.
  unfold agg_frame. intros H.
  apply result_bind_Ok in H as (copy & Hcopy & H).
  unfold groupby_mean in H.
  apply result_bind_Ok in H as (floor & Hfl & H). apply of_option_Ok in Hfl.
  apply result_bind_Ok in H as (locs & Hl & H). apply getitem_Ok in Hl.
  apply result_bind_Ok in H as (times & Ht & H). apply getitem_Ok in Ht.
  apply result_bind_Ok in H as (keys & Hk & [= <-]).
  destruct (private_copy_keys copy false Hcopy floor times locs keys) as [Hobs Hlen];
    [done..|].
  exists keys.
  split; [by apply private_copy_Ok in Hcopy as (? & _)|].
  split; [done|]. split; [done|]. split; [done|].
  apply private_copy_Ok in Hcopy as (_ & _ & _ & _ & _ & _ & _ & _ & Ho).
  assert (∀ c, cols (Frame (group_keys keys)
             (omap (group_mean keys (group_keys keys))
                (delete tv (delete lv (cols copy))))) !! c =
           if decide (c ∈ cs ∧ c ≠ tv ∧ c ≠ lv)
           then cols src !! c ≫= group_mean keys (group_keys keys)
           else None) as Hcols; [|split; [|done]].
  2:{ intros c col. rewrite Hcols. case_decide; [|done].
      destruct (cols src !! c) as [raw|]; [|done]. simpl.
      unfold group_mean. destruct (mapM as_num raw); [|done]. simpl.
      intros [= <-]. by rewrite length_fmap. }
  intros c. simpl. rewrite lookup_omap.
  destruct (decide (c = tv)) as [->|Htv].
  { rewrite lookup_delete_eq. simpl. rewrite decide_False; [done|]. tauto. }
  rewrite lookup_delete_ne by done.
  destruct (decide (c = lv)) as [->|Hlv].
  { rewrite lookup_delete_eq. simpl. rewrite decide_False; [done|]. tauto. }
  rewrite lookup_delete_ne by done. rewrite Ho by done.
  destruct (decide (c ∈ cs)).
  - by rewrite decide_True.
  - rewrite decide_False; [done|]. tauto.
Qed.
End Columns.
End Prepared.

(** ** Flips, clusters and labels *)

Lemma mask_select_fmap {A B} (f : A → B) (xs : list A) mask :
  mask_select (f <$> xs) mask = f <$> mask_select xs mask.
Proof.
  unfold mask_select. revert mask.
  induction xs as [|x xs IH]; intros [|m mask]; simpl; try done.
  rewrite !filter_cons. simpl. destruct m; simpl.
  - f_equal. apply IH.
  - apply IH.
Qed.

Lemma elem_of_mask_select {A} (xs : list A) mask x :
  x ∈ mask_select xs mask ↔ ∃ i, xs !! i = Some x ∧ mask !! i = Some true.
Proof.
  unfold mask_select. rewrite list_elem_of_fmap. split.
  - intros ([x' m] & -> & Hin). apply list_elem_of_filter in Hin as [Hm Hin].
    simpl in Hm. subst m.
    apply elem_of_lookup_zip_with in Hin as (i & a & b & [= <- <-] & Ha & Hb).
    eauto.
  - intros (i & Hx & Hm). exists (x, true). split; [done|].
    apply list_elem_of_filter. split; [done|].
    apply elem_of_lookup_zip_with. exists i, x, true. done.
Qed.

(** In a list without repetition, the flip at a position decides alone
    whether the cluster at that position is selected. *)
Lemma treated_lookup clusters bits i k b :
  NoDup clusters → clusters !! i = Some k → bits !! i = Some b →
  treated clusters bits k = b.
Proof.
  intros Hnd Hk Hb. unfold treated. destruct b.
  - apply bool_decide_eq_true. apply elem_of_mask_select. eauto.
  - apply bool_decide_eq_false. intros (j & Hj & Hm)%elem_of_mask_select.
    assert (i = j) as -> by (eapply NoDup_lookup; eauto). congruence.
Qed.

Lemma remove_dups_fmap_inj `{EqDecision A, EqDecision B} (f : A → B) (l : list A) :
  (∀ x y, x ∈ l → y ∈ l → f x = f y → x = y) →
  remove_dups (f <$> l) = f <$> remove_dups l.
Proof.
  induction l as [|x l IH]; intros Hinj; [done|].
  rewrite fmap_cons.
  change (remove_dups (f x :: (f <$> l))) with
    (if decide_rel elem_of (f x) (f <$> l) then remove_dups (f <$> l)
     else f x :: remove_dups (f <$> l)).
  change (remove_dups (x :: l)) with
    (if decide_rel elem_of x l then remove_dups l else x :: remove_dups l).
  assert (remove_dups (f <$> l) = f <$> remove_dups l) as IH'.
  { apply IH. intros a b Ha Hb. apply Hinj; by right. }
  destruct (decide_rel elem_of x l) as [Hin|Hout];
    destruct (decide_rel elem_of (f x) (f <$> l)) as [Hin'|Hout'].
  - done.
  - destruct Hout'. by apply list_elem_of_fmap_2.
  - apply list_elem_of_fmap in Hin' as (y & Hfy & Hy). destruct Hout.
    rewrite (Hinj x y); [done|by left|by right|done].
  - rewrite fmap_cons. by f_equal.
Qed.

Section Labels.
Context (keys rows : list label).
Hypothesis Hrows : ∀ k, k ∈ rows → k ∈ keys.

Lemma cluster_id_inj k1 k2 :
  k1 ∈ keys → k2 ∈ keys → cluster_id keys k1 = cluster_id keys k2 → k1 = k2.
Proof.
  intros H1 H2 H. apply cell_of_nat_inj in H. by eapply group_number_inj.
Qed.

Lemma norm_cluster_id k : norm_cell (cluster_id keys k) = cluster_id keys k.
Proof. apply norm_cell_of_nat. Qed.

Lemma norm_cluster_ids (ks : list label) :
  norm_cell <$> (cluster_id keys <$> ks) = cluster_id keys <$> ks.
Proof.
  rewrite <- list_fmap_compose. apply list_fmap_ext.
  intros i k _. apply norm_cluster_id.
Qed.

(** The values of [period_city], in order of appearance, are the numbers
    of the distinct clusters. *)
Lemma unique_cluster_ids :
  unique (cluster_id keys <$> rows) = cluster_id keys <$> remove_dups rows.
Proof.
  unfold unique. rewrite norm_cluster_ids. apply remove_dups_fmap_inj.
  intros x y Hx Hy. apply cluster_id_inj; by apply Hrows.
Qed.

(** Lines 86-89: a row is labelled 1 exactly when its cluster was dealt
    a 1. *)
Lemma isin_labels bits :
  cell_of_bool <$>
    isin (cluster_id keys <$> rows)
         (mask_select (unique (cluster_id keys <$> rows)) bits)
  = labels (remove_dups rows) bits rows.
Proof.
  rewrite unique_cluster_ids, mask_select_fmap. unfold isin, labels.
  rewrite norm_cluster_ids. rewrite <- !list_fmap_compose.
  apply list_fmap_ext. intros i k Hk. unfold compose. f_equal.
  rewrite norm_cluster_id. unfold treated. apply bool_decide_ext.
  apply list_elem_of_lookup_2 in Hk. split.
  - intros (k' & Heq & Hin)%list_elem_of_fmap.
    assert (k' ∈ rows) as Hk'.
    { apply elem_of_mask_select in Hin as (j & Hj & _).
      apply list_elem_of_lookup_2 in Hj. by rewrite elem_of_remove_dups in Hj. }
    apply cluster_id_inj in Heq; [by subst|by apply Hrows..].
  - intros Hin. by apply list_elem_of_fmap_2.
Qed.
End Labels.

Lemma labels_agg clusters bits (rows : list label) :
  cell_of_bool <$> ((λ l, bool_decide (l ∈ mask_select clusters bits)) <$> rows)
  = labels clusters bits rows.
Proof. unfold labels. by rewrite <- list_fmap_compose. Qed.

Lemma length_labels clusters bits rows :
  length (labels clusters bits rows) = length rows.
Proof. unfold labels. by rewrite length_fmap. Qed.

Lemma labels_numeric clusters bits rows :
  labels clusters bits rows
  = numeric ((λ k, if treated clusters bits k then 1 else 0)%Q <$> rows).
Proof. unfold labels, numeric. by rewrite <- list_fmap_compose. Qed.

Lemma length_synthetic MDE v xs :
  length v = length xs → length (synthetic MDE v xs) = length xs.
Proof.
  intros H. unfold synthetic. rewrite length_assign_where;
    unfold numeric, eq_scalar; rewrite !length_fmap; done.
Qed.

Lemma synthetic_numeric MDE clusters bits rows xs :
  synthetic MDE (labels clusters bits rows) xs
  = numeric (zip_with (λ k x, if treated clusters bits k then x * MDE else x)%Q
               rows xs).
Proof.
  unfold synthetic, labels, numeric, assign_where, eq_scalar.
  revert xs. induction rows as [|k rows IH]; intros [|x xs]; simpl; try done.
  f_equal; [by destruct (treated clusters bits k)|apply IH].
Qed.

Lemma length_numeric xs : length (numeric xs) = length xs.
Proof. apply length_fmap. Qed.

Lemma numeric_inj xs ys : numeric xs = numeric ys → xs = ys.
Proof.
  unfold numeric. revert ys. induction xs as [|x xs IH]; intros [|y ys]; simpl;
    try done.
  intros [= -> H]. f_equal. by apply IH.
Qed.

(** ** One replicate on a frame *)

Lemma replicate_frame_shape label_step ov MDE df v df' :
  zero_variant df ≫= label_step = Ok (setitem df "variant" v) →
  replicate_frame label_step ov MDE df = Ok df' →
  ∃ xs, cols (setitem df "variant" v) !! ov = Some (numeric xs) ∧
        df' = setitem (setitem df "variant" v) "outcome_sim" (synthetic MDE v xs).
Proof.
  intros Hl H. unfold replicate_frame in H.
  change (zero_variant df ≫= (λ df1, label_step df1 ≫= (λ df2,
            copy_outcome ov df2 ≫= scale_treated ov MDE)) = Ok df') in H.
  unfold zero_variant in Hl, H. simpl in Hl, H. rewrite Hl in H. simpl in H.
  pose proof H as [xs Hxs]%scale_treated_Ok. exists xs. split; [done|].
  erewrite scale_treated_run in H; [|done|apply lookup_insert_eq]. congruence.
Qed.


Section Steps.
Context (src df0 : frame) (keys : list label) (ov method : string) (MDE : Q).

Lemma setitem_index df c col : index (setitem df c col) = index df.
Proof. done. Qed.

Lemma elem_of_order_rows k :
  k ∈ take_rows (row_order keys) keys → k ∈ keys.
Proof.
  rewrite take_rows_Permutation; [done|].
  unfold row_order. rewrite sort_perm_Permutation. by rewrite length_fmap.
Qed.

Lemma length_order_rows :
  length (take_rows (row_order keys) keys) = length keys.
Proof.
  apply length_take_rows. unfold row_order.
  rewrite sort_perm_Permutation. by rewrite length_fmap.
Qed.

Hypothesis Hrows0 : nrows df0 = length (analysis_rows false keys).
Hypothesis Hout0 :
  ov ∉ reserved false → cols df0 !! ov = analysis_outcome false src ov keys.

Lemma order_step_good df rp df' :
  order_inv df0 keys df →
  order_step (unique (cluster_id keys <$> analysis_rows false keys))
    ov MDE method df rp df' →
  order_inv df0 keys df' ∧ rep_good false method MDE ov src keys rp.
Proof.
  intros (Hwf & Hidx & HG & Hkeep) (Hbits & Hf & y & v & g & ys & Hy & Hv & Hg & Hys & HA & HB).
  unfold analysis_rows in *.
  set (rows := take_rows (row_order keys) keys) in *.
  set (G := cluster_id keys <$> rows) in *.
  assert (nrows df = length rows) as Hn by (unfold nrows; by rewrite Hidx).
  set (V := labels (remove_dups rows) (rep_bits rp) rows).
  assert (zero_variant df ≫= label_rows (mask_select (unique G) (rep_bits rp))
          = Ok (setitem df "variant" V)) as Hlab.
  { rewrite (label_rows_run _ _ G); [|done|by rewrite Hn; unfold G; rewrite length_fmap].
    unfold V, G. by rewrite (isin_labels keys rows elem_of_order_rows). }
  destruct (replicate_frame_shape _ _ _ _ _ _ Hlab Hf) as (xs & Hxs & ->).
  simpl in Hy, Hv, Hg, Hys, Hxs.
  rewrite lookup_insert_eq in Hys. injection Hys as <-.
  rewrite lookup_insert_ne, lookup_insert_eq in Hv by done. injection Hv as <-.
  rewrite !lookup_insert_ne in Hg by done. rewrite HG in Hg. injection Hg as <-.
  assert (length xs = length rows) as Hlen.
  { destruct (decide (ov = "variant")) as [->|Hne].
    - rewrite lookup_insert_eq in Hxs. injection Hxs as Hxs.
      rewrite <- (length_numeric xs), <- Hxs. apply length_labels.
    - rewrite lookup_insert_ne in Hxs by done. apply Hwf in Hxs.
      rewrite length_numeric in Hxs. by rewrite Hxs. }
  assert (length V = length xs) as HlenV by (by rewrite Hlen; apply length_labels).
  split.
  - split.
    { apply setitem_wf; [apply setitem_wf; [done|]|].
      - rewrite Hn. apply length_labels.
      - rewrite length_synthetic by done. by rewrite Hlen. }
    split; [done|]. split; [simpl; by rewrite !lookup_insert_ne|].
    intros c Hc. simpl. rewrite <- Hkeep by done.
    unfold reserved in Hc. rewrite !not_elem_of_cons in Hc.
    destruct Hc as (? & ? & ? & _). by rewrite !lookup_insert_ne.
  - unfold rep_good, analysis_rows, drawn_clusters. fold rows. fold V.
    split.
    { rewrite Hbits. unfold G.
      rewrite (unique_cluster_ids keys rows elem_of_order_rows).
      by rewrite length_fmap. }
    exists xs. split; [done|]. unfold build, analysis_rows. fold rows. fold G.
    split; [done|]. split.
    { rewrite HA. f_equal. case_decide as Ho.
      - subst ov. rewrite lookup_insert_eq in Hy. congruence.
      - rewrite lookup_insert_ne in Hy by done. congruence. }
    intros Hc. rewrite <- Hout0, <- Hkeep by done. rewrite <- Hxs.
    unfold reserved in Hc. rewrite !not_elem_of_cons in Hc.
    destruct Hc as (? & _). by rewrite lookup_insert_ne.
Qed.

End Steps.

Section StepsAgg.
Context (src df0 : frame) (keys : list label) (ov method : string) (MDE : Q).

Hypothesis Hout1 :
  ov ∉ reserved true → cols df0 !! ov = analysis_outcome true src ov keys.

Lemma agg_step_good df rp df' :
  agg_inv df0 keys df → agg_step ov MDE df rp df' →
  agg_inv df0 keys df' ∧ rep_good true method MDE ov src keys rp.
Proof.
  intros (Hwf & Hidx & Hkeep) (Hbits & Hf & y & v & ys & Hy & Hv & Hys & HA & HB).
  set (rows := group_keys keys) in *.
  assert (nrows df = length rows) as Hn by (unfold nrows; by rewrite Hidx).
  set (V := labels rows (rep_bits rp) rows).
  assert (zero_variant df ≫= label_clusters (mask_select (index df) (rep_bits rp))
          = Ok (setitem df "variant" V)) as Hlab.
  { rewrite label_clusters_run. rewrite labels_agg. by rewrite Hidx. }
  destruct (replicate_frame_shape _ _ _ _ _ _ Hlab Hf) as (xs & Hxs & ->).
  simpl in Hy, Hv, Hys, Hxs.
  rewrite lookup_insert_eq in Hys. injection Hys as <-.
  rewrite lookup_insert_ne, lookup_insert_eq in Hv by done. injection Hv as <-.
  assert (length xs = length rows) as Hlen.
  { destruct (decide (ov = "variant")) as [->|Hne].
    - rewrite lookup_insert_eq in Hxs. injection Hxs as Hxs.
      rewrite <- (length_numeric xs), <- Hxs. apply length_labels.
    - rewrite lookup_insert_ne in Hxs by done. apply Hwf in Hxs.
      rewrite length_numeric in Hxs. by rewrite Hxs. }
  assert (length V = length xs) as HlenV by (by rewrite Hlen; apply length_labels).
  split.
  - split.
    { apply setitem_wf; [apply setitem_wf; [done|]|].
      - rewrite Hn. apply length_labels.
      - rewrite length_synthetic by done. by rewrite Hlen. }
    split; [done|].
    intros c Hc. simpl. rewrite <- Hkeep by done.
    unfold reserved in Hc. rewrite !not_elem_of_cons in Hc.
    destruct Hc as (? & ? & _). by rewrite !lookup_insert_ne.
  - unfold rep_good, analysis_rows, drawn_clusters. fold rows. fold V.
    split; [by rewrite Hbits|].
    exists xs. split; [done|]. unfold build.
    split; [done|]. split.
    { rewrite HA. f_equal. case_decide as Ho.
      - subst ov. rewrite lookup_insert_eq in Hy. congruence.
      - rewrite lookup_insert_ne in Hy by done. congruence. }
    intros Hc. rewrite <- Hout1, <- Hkeep by done. rewrite <- Hxs.
    unfold reserved in Hc. rewrite !not_elem_of_cons in Hc.
    destruct Hc as (? & _). by rewrite lookup_insert_ne.
Qed.
End StepsAgg.

Section Master.
Variable to_datetime : cell → option Z.
Variable bucketing : string → option (Z → Z).
Variable fit : fit_request → option num.

(** Every successful run is a sequence of [sims] replicates on the
    analysis frame, each of the shape [rep_good] describes. *)
Lemma ModelQuality_replicates data tv lv ov F cv MDE sims method agg
    w src res w' :
  heap w !! data = Some src → frame_wf src →
  ModelQuality to_datetime bucketing fit data tv lv ov F cv MDE sims method agg w
    = (Ok res, w') →
  ∃ keys rs df0 r dfN,
    observation_keys to_datetime bucketing src tv lv F (negb agg) = Ok keys ∧
    length keys = nrows src ∧
    NoDup (columns_of tv lv ov cv) ∧
    (if agg then method = "ols" else method ∈ ["ols"; "mlm"]) ∧
    analysis_frame to_datetime bucketing agg src tv lv ov F cv = Ok df0 ∧
    (r ∉ dom (heap w)) ∧ heap w' !! r = Some dfN ∧ index dfN = index df0 ∧
    (∀ c, c ∉ reserved agg → cols dfN !! c = cols df0 !! c) ∧
    length rs = Z.to_nat sims ∧
    Forall (rep_good agg method MDE ov src keys) rs ∧
    Forall (λ r, is_Some (fit (rep_AA r)) ∧ is_Some (fit (rep_AB r))) rs ∧
    coins w' = coins w ∧
    drawn w' = (drawn w + Z.to_nat sims * length (drawn_clusters agg keys))%nat ∧
    trace w' = trace w ++ (rs ≫= rep_events ov) ∧
    res = [np_mean ((λ r, indicator fit (5 # 100) (rep_AA r)) <$> rs);
           np_mean ((λ r, indicator fit (5 # 100) (rep_AB r)) <$> rs)].
Proof.
  intros Hsrc Hwf H. destruct agg.
  - apply (ModelQuality_agg_Ok _ _ _ _ _ _ _ _ _ _ _ _ _ src) in H
      as (r1 & r2 & copy & dfa & AA & AB & Hm & Hcopy & Hdfa & Hr1 & Hr2 & Hne & H & ->);
      [|done].
    destruct (agg_frame_Ok _ _ src tv lv ov F cv Hwf dfa Hdfa)
      as (keys & Hnd & Hobs & Hlen & Hidx & Hwfa & Hcols).
    eapply (loop_agg_Ok fit (agg_inv dfa keys)
              (rep_good true method MDE ov src keys)) in H
      as (rs & dfN & Hn & Hgood & (HwfN & HidxN & Hkeep) & Hfits & Hheap & Hcoins & _
          & Hdrawn & Htrace & [= -> ->]).
    + exists keys, rs, dfa, r2, dfN. simpl in *.
      split; [done|]. split; [done|]. split; [done|]. split; [done|].
      split; [done|]. split; [done|].
      split; [rewrite Hheap; apply lookup_insert_eq|].
      split; [congruence|]. split; [done|]. split; [done|].
      split; [done|]. split; [done|]. split; [done|].
      split; [|done]. rewrite Hdrawn. unfold nrows. by rewrite Hidx.
    + intros df rp df'. apply agg_step_good.
      intros Hc. rewrite Hcols. unfold reserved in Hc.
      apply columns_of_NoDup in Hnd as (_ & Htv & Hlv & _ & _ & Hin).
      rewrite decide_True; [reflexivity|]. split; [done|]. split; congruence.
    + simpl. apply lookup_insert_eq.
    + split; [done|]. split; [done|]. done.
  - apply (ModelQuality_order_Ok _ _ _ _ _ _ _ _ _ _ _ _ _ src) in H
      as (r & df0 & G & AA & AB & Hm & Hdf0 & HG & Hr & H & ->); [|done].
    destruct (order_frame_Ok _ _ src tv lv ov F cv Hwf df0 Hdf0)
      as (keys & Hnd & Hobs & Hlen & Hidx & Hn0 & Hwf0 & HG' & Hcols).
    rewrite HG in HG'. injection HG' as ->.
    eapply (loop_order_Ok fit (order_inv df0 keys)
              (rep_good false method MDE ov src keys)) in H
      as (rs & dfN & Hn & Hgood & (HwfN & HidxN & _ & Hkeep) & Hfits & Hheap & Hcoins
          & Hdrawn & Htrace & [= -> ->]).
    + exists keys, rs, df0, r, dfN. simpl in *.
      split; [done|]. split; [done|]. split; [done|]. split; [done|].
      split; [done|]. split; [done|].
      split; [rewrite Hheap; apply lookup_insert_eq|].
      split; [done|]. split; [done|]. split; [done|].
      split; [done|]. split; [done|]. split; [done|].
      split; [|done]. rewrite Hdrawn. unfold drawn_clusters.
      rewrite (unique_cluster_ids keys _ (elem_of_order_rows keys)).
      by rewrite length_fmap.
    + intros df rp df'. apply order_step_good.
      { unfold analysis_rows. by rewrite Hn0, length_order_rows. }
      intros Hc. unfold reserved in Hc. rewrite !not_elem_of_cons in Hc.
      destruct Hc as (_ & _ & Hpc & _).
      apply columns_of_NoDup in Hnd as (_ & Htv & _ & _ & _ & Hin).
      rewrite Hcols by congruence. rewrite decide_True by done. reflexivity.
    + simpl. apply lookup_insert_eq.
    + split; [done|]. split; [done|]. split; [done|]. done.
Qed.
End Master.

Section Totality.
Variable fit : fit_request → option num.
Hypothesis fit_total : ∀ req, is_Some (fit req).

Lemma call_fit_run name req w :
  ∃ p, fit req = Some p ∧
    call_fit fit name req w =
      (Ok p, World (heap w) (coins w) (drawn w)
               (trace w ++ [EFit name "variant" "variant" req])).
Proof.
  destruct (fit_total req) as [p Hp]. exists p. split; [done|].
  unfold call_fit. by rewrite Hp.
Qed.









End Totality.

Section Returns.
Variable to_datetime : cell → option Z.
Variable bucketing : string → option (Z → Z).
Variable fit : fit_request → option num.

Context (src : frame) (tv lv ov F : string) (cv : option (list string)).


Lemma group_mean_numeric keys groups ys :
  group_mean keys groups (numeric ys)
  = Some (numeric ((λ g, Qmean (group_values keys ys g)) <$> groups)).
Proof.
  unfold group_mean.
  assert (mapM as_num (numeric ys) = Some ys) as -> by (by apply mapM_as_num_Some).
  simpl. unfold numeric. by rewrite <- list_fmap_compose.
Qed.




End Returns.

(** ** The caller's objects are left alone *)

Lemma heap_kept_dom P w w' : P ⊆ dom (heap w) → heap_kept P w w' → P ⊆ dom (heap w').
Proof.
  intros HP Hk r Hr. apply elem_of_dom. rewrite Hk by done.
  apply elem_of_dom. by apply HP.
Qed.

Lemma keeps_bind {A B} P (m : M A) (f : A → M B) :
  keeps P m → (∀ a, keeps P (f a)) → keeps P (m ≫= f).
Proof.
  intros Hm Hf w res w' HP H.
  apply bind_cases in H as [(a & w1 & H1 & H2)|(e & H1 & _)].
  - eapply heap_kept_trans; [by eapply Hm|].
    eapply Hf; [|done]. eapply heap_kept_dom; [done|by eapply Hm].
  - by eapply Hm.
Qed.

Lemma keeps_pure {A} P (m : M A) :
  (∀ w res w', m w = (res, w') → heap w' = heap w) → keeps P m.
Proof. intros H w res w' _ Hm r _. by rewrite (H _ _ _ Hm). Qed.

Lemma keeps_ret {A} P (a : A) : keeps P (mret a).
Proof. apply keeps_pure. by intros w res w' [= _ <-]. Qed.

Lemma keeps_raise {A} P e : keeps P (@raise A e).
Proof. apply keeps_pure. by intros w res w' [= _ <-]. Qed.

Lemma keeps_lift {A} P (r : result A) : keeps P (lift r).
Proof. apply keeps_pure. by intros w res w' [= _ <-]. Qed.

Lemma keeps_read P r : keeps P (read r).
Proof. apply keeps_pure. by intros w res w' [= _ <-]. Qed.

Lemma keeps_binomial P n p size : keeps P (binomial n p size).
Proof. apply keeps_pure. by intros w res w' [= _ <-]. Qed.

Lemma keeps_call_fit P fit name req : keeps P (call_fit fit name req).
Proof. apply keeps_pure. by intros w res w' [= _ <-]. Qed.

Lemma keeps_update P r f : r ∉ P → keeps P (update r f).
Proof. intros Hr w res w' _ H. by eapply update_kept. Qed.

(** A new object is never one of the caller's. *)
Lemma keeps_alloc_bind {B} P df (f : nat → M B) :
  (∀ r, r ∉ P → keeps P (f r)) → keeps P (alloc df ≫= f).
Proof.
  intros Hf w res w' HP H. unfold mbind, M_bind, alloc in H.
  set (r := fresh (dom (heap w))) in *.
  assert (r ∉ P) as Hr by (intros Hin; apply (is_fresh (dom (heap w))); by apply HP).
  eapply heap_kept_trans; [|eapply (Hf r Hr); [|exact H]].
  - intros r' Hr'. simpl. apply lookup_insert_ne. congruence.
  - simpl. rewrite dom_insert_L. set_solver.
Qed.

Create HintDb keeps.

#[local] Hint Resolve keeps_ret keeps_raise keeps_lift keeps_read keeps_binomial
  keeps_call_fit keeps_update : keeps.

Ltac keeps_step :=
  first [ apply keeps_alloc_bind; intros ? ?
        | apply keeps_bind; [|intros ?]
        | progress auto with keeps
        | case_decide
        | match goal with |- keeps _ (if ?b then _ else _) => destruct b end ].

Lemma loop_order_keeps P fit n data U ov MDE method alpha AA AB :
  data ∉ P → keeps P (loop_order fit n data U ov MDE method alpha AA AB).
Proof.
  intros Hd. revert AA AB. induction n as [|n IH]; intros AA AB; simpl.
  - apply keeps_ret.
  - repeat keeps_step; apply IH.
Qed.

Lemma loop_agg_keeps P fit n data ov MDE method alpha AA AB :
  data ∉ P → keeps P (loop_agg fit n data ov MDE method alpha AA AB).
Proof.
  intros Hd. revert AA AB. induction n as [|n IH]; intros AA AB; simpl.
  - apply keeps_ret.
  - repeat keeps_step; apply IH.
Qed.

Lemma ModelQuality_keeps P to_datetime bucketing fit data tv lv ov F cv MDE sims
    method agg :
  keeps P (ModelQuality to_datetime bucketing fit data tv lv ov F cv MDE sims
             method agg).
Proof.
  unfold ModelQuality.
  repeat keeps_step; first [by apply loop_agg_keeps|by apply loop_order_keeps].
Qed.

(** ** Means of indicators *)

Lemma Qsum_indicators xs :
  Forall (λ x, x = 1%Q ∨ x = 0%Q) xs →
  (0 <= Qsum xs)%Q ∧ (Qsum xs <= inject_Z (Z.of_nat (length xs)))%Q.
Proof.
  induction 1 as [|x xs Hx _ [IH1 IH2]]; simpl Qsum.
  - simpl. split; apply Qle_refl.
  - cbn [length]. rewrite Nat2Z.inj_succ, <- Z.add_1_r, inject_Z_plus.
    change (inject_Z 1) with 1%Q. destruct Hx as [-> | ->]; split; lra.
Qed.

(** The mean of a non-empty list of 0/1 indicators is in the unit interval. *)
Lemma Qmean_indicators xs :
  xs ≠ [] → Forall (λ x, x = 1%Q ∨ x = 0%Q) xs →
  (0 <= Qmean xs)%Q ∧ (Qmean xs <= 1)%Q.
Proof.
  intros Hne Hall. destruct (Qsum_indicators xs Hall) as [H1 H2].
  assert (0 < inject_Z (Z.of_nat (length xs)))%Q as Hpos.
  { change 0%Q with (inject_Z 0). rewrite <- Zlt_Qlt.
    destruct xs; [done|]. simpl length. lia. }
  unfold Qmean. split.
  - apply Qle_shift_div_l; [done|]. lra.
  - apply Qle_shift_div_r; [done|]. lra.
Qed.

Lemma significant_cases p alpha :
  significant p alpha = 1%Q ∨ significant p alpha = 0%Q.
Proof. destruct p as [q|]; simpl; [destruct (Qle_bool alpha q)|]; auto. Qed.


Lemma exog_of_build agg method keys y v : exog_of (build agg method keys y v) = v.
Proof. unfold build, build_order. destruct agg; [done|]. by case_decide. Qed.

Lemma endog_of_build agg method keys y v : endog_of (build agg method keys y v) = y.
Proof. unfold build, build_order. destruct agg; [done|]. by case_decide. Qed.

(** The clusters the flips go to are the distinct clusters of the data. *)
Lemma drawn_clusters_spec agg keys :
  NoDup (drawn_clusters agg keys) ∧ drawn_clusters agg keys ≡ₚ remove_dups keys.
Proof.
  destruct agg; simpl.
  - split; [apply NoDup_group_keys|apply group_keys_Permutation].
  - split; [apply NoDup_remove_dups|].
    apply NoDup_Permutation; [apply NoDup_remove_dups..|].
    intros k. rewrite !elem_of_remove_dups.
    rewrite take_rows_Permutation; [done|].
    unfold row_order. rewrite sort_perm_Permutation. by rewrite length_fmap.
Qed.

Lemma length_drawn_clusters agg keys :
  length (drawn_clusters agg keys) = length (remove_dups keys).
Proof. by rewrite (proj2 (drawn_clusters_spec agg keys)). Qed.

(** The analysis rows are the observations, or the distinct clusters. *)
Lemma analysis_rows_spec (agg : bool) keys :
  if agg then NoDup (analysis_rows true keys) ∧
              analysis_rows true keys ≡ₚ remove_dups keys
  else analysis_rows false keys ≡ₚ keys.
Proof.
  destruct agg; simpl.
  - split; [apply NoDup_group_keys|apply group_keys_Permutation].
  - apply take_rows_Permutation.
    unfold row_order. rewrite sort_perm_Permutation. by rewrite length_fmap.
Qed.

(** Every row of a cluster carries the label the cluster was dealt. *)
Lemma labels_lookup (clusters rows : list label) (bits : list bool) i k b j :
  NoDup clusters → clusters !! i = Some k → bits !! i = Some b →
  rows !! j = Some k →
  labels clusters bits rows !! j = Some (cell_of_bool b).
Proof.
  intros Hnd Hk Hb Hj. unfold labels. rewrite list_lookup_fmap, Hj. simpl.
  by rewrite (treated_lookup clusters bits i k b).
Qed.

Lemma labels_by_cluster_labels (clusters rows : list label) (bits : list bool) :
  labels_by_cluster rows (labels clusters bits rows).
Proof.
  split; [apply length_labels|]. split.
  - intros i j k ci cj Hi Hj. unfold labels. rewrite !list_lookup_fmap, Hi, Hj.
    simpl. congruence.
  - unfold labels. apply Forall_fmap, Forall_true. intros k. simpl.
    destruct (treated clusters bits k); auto.
Qed.


(** * The claims *)

Section Claims.
Variable to_datetime : cell → option Z.
Variable bucketing : string → option (Z → Z).
Variable fit : fit_request → option num.


(** C2.  With a method other than ols and mlm, and with agg=true
    together with method=mlm, ModelQuality raises its configuration
    error at once: the world is exactly as it was, so nothing was drawn,
    copied or fitted. *)
Theorem ModelQuality_config_error data tv lv ov F cv MDE sims method agg w :
  method ∉ ["ols"; "mlm"] ∨ (agg = true ∧ method = "mlm") →
  ∃ msg,
    ModelQuality to_datetime bucketing fit data tv lv ov F cv MDE sims method agg w
      = (Raise (ConfigError msg), w).
Proof.
  intros H. unfold ModelQuality. case_bool_decide as Hm; [by eexists|].
  destruct H as [H|[-> ->]]; [done|]. by eexists.
Qed.


(** C4.  In every replicate exactly one Bernoulli(0.5) value is drawn
    for every distinct region-time cluster of the data, whatever the
    number of its observations: the draws of a replicate are as many as
    the distinct cluster keys, the i-th draw is the label of every row
    of the i-th cluster, and a run consumes [sims] times that many
    flips. *)
Theorem one_draw_per_cluster data tv lv ov F cv MDE sims method agg w src res w' :
  frame_wf src →
  heap w !! data = Some src →
  ModelQuality to_datetime bucketing fit data tv lv ov F cv MDE sims method agg w
    = (Ok res, w') →
  ∃ keys rs,
    observation_keys to_datetime bucketing src tv lv F (negb agg)
      = Ok keys ∧
    length keys = nrows src ∧
    trace w' = trace w ++ (rs ≫= rep_events ov) ∧
    Z.of_nat (length rs) = Z.max 0 sims ∧
    drawn w' = (drawn w + length rs * length (remove_dups keys))%nat ∧
    NoDup (drawn_clusters agg keys) ∧
    drawn_clusters agg keys ≡ₚ remove_dups keys ∧
    Forall (λ rp,
      length (rep_bits rp) = length (remove_dups keys) ∧
      ∀ i k b j,
        drawn_clusters agg keys !! i = Some k → rep_bits rp !! i = Some b →
        analysis_rows agg keys !! j = Some k →
        exog_of (rep_AA rp) !! j = Some (cell_of_bool b) ∧
        exog_of (rep_AB rp) !! j = Some (cell_of_bool b)) rs.
Proof.
  intros Hwf Hsrc Hrun.
  destruct (ModelQuality_replicates _ _ _ _ _ _ _ _ _ _ _ _ _ _ _ _ _ Hsrc Hwf Hrun)
    as (keys & rs & df0 & r & dfN & Hk & Hkn & _ & _ & _ & _ & _ & _ & _ & Hlen & Hgood
        & _ & _ & Hdrawn & Htrace & _).
  destruct (drawn_clusters_spec agg keys) as [Hnd Hperm].
  exists keys, rs. split; [done|]. split; [done|]. split; [done|].
  split; [lia|].
  split; [by rewrite Hdrawn, Hlen, length_drawn_clusters|].
  split; [done|]. split; [done|].
  eapply list.Forall_impl; [exact Hgood|].
  intros rp (Hbits & xs & _ & HB & HA & _).
  split; [by rewrite Hbits, length_drawn_clusters|].
  intros i k b j Hi Hb Hj. rewrite HA, HB, !exog_of_build.
  split; by eapply labels_lookup.
Qed.

(** C5.  Within every replicate, the rows that share a region-time
    cluster key carry one and the same treatment label in both fits,
    and every label is 0 or 1.  (At order level the rows are the
    observations; in the aggregated mode, the clusters themselves.) *)
Theorem same_label_within_cluster
    data tv lv ov F cv MDE sims method agg w src res w' :
  frame_wf src →
  heap w !! data = Some src →
  ModelQuality to_datetime bucketing fit data tv lv ov F cv MDE sims method agg w
    = (Ok res, w') →
  ∃ keys rs,
    observation_keys to_datetime bucketing src tv lv F (negb agg)
      = Ok keys ∧
    length keys = nrows src ∧
    trace w' = trace w ++ (rs ≫= rep_events ov) ∧
    Z.of_nat (length rs) = Z.max 0 sims ∧
    (if agg then NoDup (analysis_rows true keys) ∧
                 analysis_rows true keys ≡ₚ remove_dups keys
     else analysis_rows false keys ≡ₚ keys) ∧
    Forall (λ rp,
      labels_by_cluster (analysis_rows agg keys) (exog_of (rep_AA rp)) ∧
      labels_by_cluster (analysis_rows agg keys) (exog_of (rep_AB rp))) rs.
Proof.
  intros Hwf Hsrc Hrun.
  destruct (ModelQuality_replicates _ _ _ _ _ _ _ _ _ _ _ _ _ _ _ _ _ Hsrc Hwf Hrun)
    as (keys & rs & df0 & r & dfN & Hk & Hkn & _ & _ & _ & _ & _ & _ & _ & Hlen & Hgood
        & _ & _ & _ & Htrace & _).
  exists keys, rs. split; [done|]. split; [done|]. split; [done|].
  split; [lia|]. split; [apply analysis_rows_spec|].
  eapply list.Forall_impl; [exact Hgood|].
  intros rp (_ & xs & _ & HB & HA & _). rewrite HA, HB, !exog_of_build.
  split; apply labels_by_cluster_labels.
Qed.


(** C7.  In the aggregated mode the loop works on a frame with exactly
    one row per distinct (location, period) cluster of the data, whose
    columns are the within-cluster means of the numeric columns of the
    private copy (the grouping columns left out), and every fit has one
    row per cluster; otherwise the loop works on a frame with the
    caller's rows (reordered), and every fit has one row per
    observation. *)
Theorem aggregation_granularity
    data tv lv ov F cv MDE sims method agg w src res w' :
  frame_wf src →
  heap w !! data = Some src →
  ModelQuality to_datetime bucketing fit data tv lv ov F cv MDE sims method agg w
    = (Ok res, w') →
  ∃ keys rs df0 r dfN,
    observation_keys to_datetime bucketing src tv lv F (negb agg)
      = Ok keys ∧
    length keys = nrows src ∧
    trace w' = trace w ++ (rs ≫= rep_events ov) ∧
    analysis_frame to_datetime bucketing agg src tv lv ov F cv = Ok df0 ∧
    heap w !! r = None ∧ heap w' !! r = Some dfN ∧
    index dfN = index df0 ∧
    (∀ c, c ∉ reserved agg → cols dfN !! c = cols df0 !! c) ∧
    Forall (λ rp, length (endog_of (rep_AA rp)) = nrows df0 ∧
                  length (endog_of (rep_AB rp)) = nrows df0 ∧
                  length (exog_of (rep_AA rp)) = nrows df0) rs ∧
    if agg then
      index df0 = group_keys keys ∧ NoDup (group_keys keys) ∧
      (∀ k, k ∈ group_keys keys ↔ k ∈ keys) ∧
      (∀ c col, cols df0 !! c = Some col →
         ∃ xs, cols src !! c = Some (numeric xs) ∧
               col = numeric ((λ g, Qmean (group_values keys xs g))
                                <$> group_keys keys)) ∧
      (∀ c xs, c ∈ columns_of tv lv ov cv → c ≠ tv → c ≠ lv →
         cols src !! c = Some (numeric xs) →
         cols df0 !! c = Some (numeric ((λ g, Qmean (group_values keys xs g))
                                          <$> group_keys keys)))
    else
      nrows df0 = nrows src ∧ index df0 ≡ₚ index src.
Proof.
  intros Hwf Hsrc Hrun.
  destruct (ModelQuality_replicates _ _ _ _ _ _ _ _ _ _ _ _ _ _ _ _ _ Hsrc Hwf Hrun)
    as (keys & rs & df0 & r & dfN & Hk & Hkn & _ & _ & Hdf0 & Hr & HdfN & Hidx & Hkeep
        & Hlen & Hgood & _ & _ & _ & Htrace & _).
  exists keys, rs, df0, r, dfN.
  split; [done|]. split; [done|]. split; [done|]. split; [done|].
  split; [by apply not_elem_of_dom|]. split; [done|]. split; [done|].
  split; [done|].
  assert (nrows df0 = length (analysis_rows agg keys) ∧
          if agg then
            index df0 = group_keys keys ∧ NoDup (group_keys keys) ∧
            (∀ k, k ∈ group_keys keys ↔ k ∈ keys) ∧
            (∀ c col, cols df0 !! c = Some col →
               ∃ xs, cols src !! c = Some (numeric xs) ∧
                     col = numeric ((λ g, Qmean (group_values keys xs g))
                                      <$> group_keys keys)) ∧
            (∀ c xs, c ∈ columns_of tv lv ov cv → c ≠ tv → c ≠ lv →
               cols src !! c = Some (numeric xs) →
               cols df0 !! c = Some (numeric ((λ g, Qmean (group_values keys xs g))
                                                <$> group_keys keys)))
          else nrows df0 = nrows src ∧ index df0 ≡ₚ index src) as [Hn Hshape].
  { destruct agg; simpl in Hk, Hdf0 |- *.
    - destruct (agg_frame_Ok _ _ src tv lv ov F cv Hwf df0 Hdf0)
        as (keys' & _ & Hk' & _ & Hi & _ & Hcols).
      rewrite Hk in Hk'. injection Hk' as <-.
      split; [unfold nrows; by rewrite Hi|]. split; [done|].
      split; [apply NoDup_group_keys|]. split; [apply elem_of_group_keys|].
      split.
      + intros c col. rewrite Hcols. case_decide; [|done].
        destruct (cols src !! c) as [raw|]; [|done]. simpl.
        unfold group_mean. destruct (mapM as_num raw) as [xs|] eqn:E; [|done].
        simpl. intros [= <-]. apply mapM_as_num_Some in E as ->.
        exists xs. split; [done|]. unfold numeric.
        by rewrite <- list_fmap_compose.
      + intros c xs Hc Htv Hlv Hxs. rewrite Hcols, decide_True, Hxs by done.
        simpl. apply group_mean_numeric.
    - destruct (order_frame_Ok _ _ src tv lv ov F cv Hwf df0 Hdf0)
        as (keys' & _ & Hk' & _ & Hi & Hn0 & _).
      rewrite Hk in Hk'. injection Hk' as <-.
      split; [by rewrite Hn0, length_order_rows|]. split; [done|].
      rewrite Hi. apply take_rows_Permutation.
      unfold row_order. rewrite sort_perm_Permutation, length_fmap.
      by rewrite Hkn. }
  split; [|done].
  eapply list.Forall_impl; [exact Hgood|].
  intros rp (_ & xs & Hxs & HB & HA & _).
  rewrite HA, HB, !endog_of_build, exog_of_build, Hn.
  rewrite length_synthetic, length_labels by (by rewrite length_labels).
  split; [|done]. case_decide; [|by rewrite length_numeric].
  by rewrite length_synthetic by (by rewrite length_labels).
Qed.

(** C8.  ModelQuality never changes an object its caller holds: whether
    it returns or raises, every dataframe of the store it was started in
    (the caller's input among them) is the same afterwards; what it
    writes, it writes to the objects it created. *)
Theorem caller_data_untouched data tv lv ov F cv MDE sims method agg w r df :
  heap w !! r = Some df →
  heap (ModelQuality to_datetime bucketing fit data tv lv ov F cv MDE sims
          method agg w).2 !! r = Some df.
Proof.
  intros Hr.
  destruct (ModelQuality to_datetime bucketing fit data tv lv ov F cv MDE sims
              method agg w) as [res w'] eqn:E.
  simpl. rewrite <- Hr.
  eapply (ModelQuality_keeps (dom (heap w))); [done|exact E|].
  by apply elem_of_dom.
Qed.

(** C9.  With MDE = 1 the injection is the identity: in every replicate
    the A/B fit is given the very data of the A/A fit (same response,
    same labels, same model), so the two significance indicators are
    equal, and so are the two values returned. *)
Theorem unit_MDE_is_null data tv lv ov F cv sims method agg w src res w' :
  frame_wf src →
  heap w !! data = Some src →
  ModelQuality to_datetime bucketing fit data tv lv ov F cv 1 sims method agg w
    = (Ok res, w') →
  ∃ rs a,
    trace w' = trace w ++ (rs ≫= rep_events ov) ∧
    Z.of_nat (length rs) = Z.max 0 sims ∧
    Forall (λ rp, endog_of (rep_AB rp) = endog_of (rep_AA rp) ∧
                  rep_AB rp = rep_AA rp ∧
                  indicator fit (5 # 100) (rep_AB rp)
                    = indicator fit (5 # 100) (rep_AA rp)) rs ∧
    res = [a; a].
Proof.
  intros Hwf Hsrc Hrun.
  destruct (ModelQuality_replicates _ _ _ _ _ _ _ _ _ _ _ _ _ _ _ _ _ Hsrc Hwf Hrun)
    as (keys & rs & df0 & r & dfN & _ & _ & _ & _ & _ & _ & _ & _ & _ & Hlen & Hgood & _
        & _ & _ & Htrace & ->).
  assert (Forall (λ rp, rep_AB rp = rep_AA rp) rs) as Hsame.
  { eapply list.Forall_impl; [exact Hgood|].
    intros rp (_ & xs & Hxs & HB & HA & _). rewrite HA, HB.
    rewrite synthetic_one by (by rewrite length_labels). by case_decide. }
  exists rs, (np_mean ((λ r, indicator fit (5 # 100) (rep_AA r)) <$> rs)).
  split; [done|]. split; [lia|]. split.
  - eapply list.Forall_impl; [exact Hsame|]. intros rp ->. done.
  - do 2 f_equal. f_equal. apply list_fmap_ext.
    intros i rp Hi. rewrite list.Forall_forall in Hsame.
    rewrite (Hsame rp); [done|]. by eapply list_elem_of_lookup_2.
Qed.

End Claims.

(** * The claims on the small data set *)

Lemma toy_frame_wf outcome : frame_wf (toy_frame outcome).
Proof.
  intros c col. unfold toy_frame, nrows. simpl.
  rewrite !lookup_insert_Some, lookup_empty. naive_solver.
Qed.

Lemma toy_valid method agg :
  method = "ols" ∨ method = "mlm" ∧ agg = false →
  valid_input toy_datetime toy_bucketing (toy_frame "y") "t" "city" "y" "10"
    None method agg.
Proof.
  intros Hm. split; [apply toy_frame_wf|].
  split; [apply (bool_decide_unpack _); by vm_compute|].
  split.
  { intros c Hc. unfold columns_of in Hc. simpl in Hc.
    rewrite !elem_of_cons, elem_of_nil in Hc.
    destruct Hc as [->|[->|[->|[]]]]; vm_compute; eauto. }
  split; [eexists; split; [vm_compute; reflexivity|vm_compute; eauto]|].
  split; [vm_compute; eauto|].
  split; [|done]. by exists [1; 2; 3; 4]%Q.
Qed.


Lemma toy_world_data outcome :
  heap (toy_world outcome) !! 0%nat = Some (toy_frame outcome).
Proof. apply lookup_singleton_eq. Qed.

(** Two order-level replicates with an effect of 100%: no false alarm, the
    effect found twice. *)
Lemma toy_run_order :
  toy_run "y" 2 2 "ols" false
  = (Ok [Fin (0 # 2); Fin (2 # 2)], (toy_run "y" 2 2 "ols" false).2).
Proof. vm_compute. reflexivity. Qed.

Lemma toy_run_agg :
  toy_run "y" 2 2 "ols" true
  = (Ok [Fin (0 # 2); Fin (1 # 2)], (toy_run "y" 2 2 "ols" true).2).
Proof. vm_compute. reflexivity. Qed.

Lemma toy_run_null :
  toy_run "y" 1 2 "mlm" false
  = (Ok [Fin (0 # 2); Fin (0 # 2)], (toy_run "y" 1 2 "mlm" false).2).
Proof. vm_compute. reflexivity. Qed.


Lemma ModelQuality_config_error_witness :
  (true = true ∧ "mlm" = "mlm") ∧
  ∃ msg, toy_run "y" 2 2 "mlm" true = (Raise (ConfigError msg), toy_world "y").
Proof.
  split; [done|].
  apply (ModelQuality_config_error toy_datetime toy_bucketing toy_fit
           0%nat "t" "city" "y" "10" None 2 2 "mlm" true (toy_world "y")).
  right. done.
Defined.



Lemma one_draw_per_cluster_witness :
  frame_wf (toy_frame "y") ∧
  heap (toy_world "y") !! 0%nat = Some (toy_frame "y") ∧
  toy_run "y" 2 2 "ols" true
    = (Ok [Fin (0 # 2); Fin (1 # 2)], (toy_run "y" 2 2 "ols" true).2) ∧
  ∃ keys rs,
    observation_keys toy_datetime toy_bucketing (toy_frame "y") "t" "city" "10" false
      = Ok keys ∧
    length keys = nrows (toy_frame "y") ∧
    Z.of_nat (length rs) = Z.max 0 2 ∧
    drawn (toy_run "y" 2 2 "ols" true).2
      = (drawn (toy_world "y") + length rs * length (remove_dups keys))%nat ∧
    Forall (λ rp, length (rep_bits rp) = length (remove_dups keys)) rs.
Proof.
  split; [apply toy_frame_wf|]. split; [apply toy_world_data|].
  split; [exact toy_run_agg|].
  destruct (one_draw_per_cluster toy_datetime toy_bucketing toy_fit
              0%nat "t" "city" "y" "10" None 2 2 "ols" true (toy_world "y")
              (toy_frame "y") _ _ (toy_frame_wf "y") (toy_world_data "y")
              toy_run_agg)
    as (keys & rs & Hk & Hkn & _ & Hlen & Hdrawn & _ & _ & Hbits).
  exists keys, rs. split; [exact Hk|]. split; [exact Hkn|].
  split; [exact Hlen|]. split; [exact Hdrawn|].
  eapply list.Forall_impl; [exact Hbits|]. intros rp [H _]. exact H.
Defined.

Lemma same_label_within_cluster_witness :
  frame_wf (toy_frame "y") ∧
  heap (toy_world "y") !! 0%nat = Some (toy_frame "y") ∧
  toy_run "y" 1 2 "mlm" false
    = (Ok [Fin (0 # 2); Fin (0 # 2)], (toy_run "y" 1 2 "mlm" false).2) ∧
  ∃ keys rs,
    observation_keys toy_datetime toy_bucketing (toy_frame "y") "t" "city" "10" true
      = Ok keys ∧
    Z.of_nat (length rs) = Z.max 0 2 ∧
    analysis_rows false keys ≡ₚ keys ∧
    Forall (λ rp,
      labels_by_cluster (analysis_rows false keys) (exog_of (rep_AA rp)) ∧
      labels_by_cluster (analysis_rows false keys) (exog_of (rep_AB rp))) rs.
Proof.
  split; [apply toy_frame_wf|]. split; [apply toy_world_data|].
  split; [exact toy_run_null|].
  destruct (same_label_within_cluster toy_datetime toy_bucketing toy_fit
              0%nat "t" "city" "y" "10" None 1 2 "mlm" false (toy_world "y")
              (toy_frame "y") _ _ (toy_frame_wf "y") (toy_world_data "y")
              toy_run_null)
    as (keys & rs & Hk & _ & _ & Hlen & Hrows & Hlab).
  exists keys, rs. split; [exact Hk|]. split; [exact Hlen|].
  split; [exact Hrows|exact Hlab].
Defined.


Lemma aggregation_granularity_witness :
  frame_wf (toy_frame "y") ∧
  heap (toy_world "y") !! 0%nat = Some (toy_frame "y") ∧
  toy_run "y" 2 2 "ols" true
    = (Ok [Fin (0 # 2); Fin (1 # 2)], (toy_run "y" 2 2 "ols" true).2) ∧
  ∃ keys rs df0,
    observation_keys toy_datetime toy_bucketing (toy_frame "y") "t" "city" "10" false
      = Ok keys ∧
    analysis_frame toy_datetime toy_bucketing true (toy_frame "y") "t" "city" "y"
      "10" None = Ok df0 ∧
    index df0 = group_keys keys ∧ NoDup (group_keys keys) ∧
    Forall (λ rp, length (endog_of (rep_AA rp)) = nrows df0 ∧
                  length (endog_of (rep_AB rp)) = nrows df0 ∧
                  length (exog_of (rep_AA rp)) = nrows df0) rs.
Proof.
  split; [apply toy_frame_wf|]. split; [apply toy_world_data|].
  split; [exact toy_run_agg|].
  destruct (aggregation_granularity toy_datetime toy_bucketing toy_fit
              0%nat "t" "city" "y" "10" None 2 2 "ols" true (toy_world "y")
              (toy_frame "y") _ _ (toy_frame_wf "y") (toy_world_data "y")
              toy_run_agg)
    as (keys & rs & df0 & r & dfN & Hk & _ & _ & Hdf0 & _ & _ & _ & _ & Hrows
        & Hidx & Hnd & _).
  exists keys, rs, df0. split; [exact Hk|]. split; [exact Hdf0|].
  split; [exact Hidx|]. split; [exact Hnd|exact Hrows].
Defined.

Lemma caller_data_untouched_witness :
  heap (toy_world "y") !! 0%nat = Some (toy_frame "y") ∧
  heap (toy_run "y" 2 2 "ols" false).2 !! 0%nat = Some (toy_frame "y").
Proof.
  split; [apply toy_world_data|].
  apply (caller_data_untouched toy_datetime toy_bucketing toy_fit
           0%nat "t" "city" "y" "10" None 2 2 "ols" false (toy_world "y")
           0%nat (toy_frame "y")).
  apply toy_world_data.
Defined.

Lemma unit_MDE_is_null_witness :
  frame_wf (toy_frame "y") ∧
  heap (toy_world "y") !! 0%nat = Some (toy_frame "y") ∧
  toy_run "y" 1 2 "mlm" false
    = (Ok [Fin (0 # 2); Fin (0 # 2)], (toy_run "y" 1 2 "mlm" false).2) ∧
  ∃ rs a,
    Z.of_nat (length rs) = Z.max 0 2 ∧
    Forall (λ rp, rep_AB rp = rep_AA rp) rs ∧
    [Fin (0 # 2); Fin (0 # 2)] = [a; a].
Proof.
  split; [apply toy_frame_wf|]. split; [apply toy_world_data|].
  split; [exact toy_run_null|].
  destruct (unit_MDE_is_null toy_datetime toy_bucketing toy_fit
              0%nat "t" "city" "y" "10" None 2 "mlm" false (toy_world "y")
              (toy_frame "y") _ _ (toy_frame_wf "y") (toy_world_data "y")
              toy_run_null)
    as (rs & a & _ & Hlen & Hsame & Hres).
  exists rs, a. split; [exact Hlen|]. split; [|exact Hres].
  eapply list.Forall_impl; [exact Hsame|]. intros rp (_ & H & _). exact H.
Defined.


(** * Further properties *)

(** ** The flips are dealt in order *)

Lemma rep_events_inj ov rs rs' :
  rs ≫= rep_events ov = rs' ≫= rep_events ov → rs = rs'.
Proof.
  revert rs'. induction rs as [|[b a c] rs IH]; intros [|[b' a' c'] rs']; try done.
  csimpl. intros [= -> -> -> H]. f_equal. by apply IH.
Qed.

Lemma flips_next w w1 k j :
  coins w1 = coins w → drawn w1 = (drawn w + k)%nat →
  flips w1 k j = flips w k (S j).
Proof.
  intros Hc Hd. unfold flips. rewrite Hc, Hd.
  apply list_fmap_ext. intros i x _. f_equal. lia.
Qed.

Lemma flips_first w k :
  (λ i, coins w (drawn w + i)%nat) <$> seq 0 k = flips w k 0.
Proof. unfold flips. apply list_fmap_ext. intros i x _. f_equal. lia. Qed.

Section Flips.
Variable fit : fit_request → option num.

Lemma loop_order_flips U ov MDE method alpha n :
  ∀ data AA AB w df res w',
    heap w !! data = Some df →
    loop_order fit n data U ov MDE method alpha AA AB w = (Ok res, w') →
    ∃ rs, trace w' = trace w ++ (rs ≫= rep_events ov) ∧
          ∀ j rp, rs !! j = Some rp → rep_bits rp = flips w (length U) j.
Proof.
  induction n as [|n IH]; intros data AA AB w df res w' Hr H.
  - injection H as <- <-. exists []. split; [by rewrite app_nil_r|done].
  - cbn [loop_order] in H. rewrite (bind_run _ _ _ _ _ (binomial_run _ _ _ _)) in H.
    rewrite flips_first in H.
    eapply replicate_frame_Ok in H as (df' & Hf & H); [|exact Hr].
    eapply fits_order_Ok in H
      as (y & v & g & ys & pAA & pAB & Hy & Hv & Hg & Hys & HpA & HpB & H);
      [|simpl; apply lookup_insert_eq].
    eapply IH in H as (rs & Htrace & Hbits); [|simpl; apply lookup_insert_eq].
    simpl in Htrace.
    exists (Rep (flips w (length U) 0) (build_order method y v g)
              (build_order method ys v g) :: rs).
    split.
    + rewrite Htrace. csimpl. unfold rep_events at 2. simpl.
      by rewrite <- !app_assoc.
    + intros [|j] rp Hj; [by injection Hj as <-|].
      simpl in Hj. rewrite (Hbits j rp Hj). by apply flips_next.
Qed.

Lemma loop_agg_flips ov MDE method alpha n :
  ∀ data AA AB w df res w',
    heap w !! data = Some df →
    loop_agg fit n data ov MDE method alpha AA AB w = (Ok res, w') →
    ∃ rs, trace w' = trace w ++ (rs ≫= rep_events ov) ∧
          ∀ j rp, rs !! j = Some rp → rep_bits rp = flips w (nrows df) j.
Proof.
  induction n as [|n IH]; intros data AA AB w df res w' Hr H.
  - injection H as <- <-. exists []. split; [by rewrite app_nil_r|done].
  - cbn [loop_agg] in H.
    rewrite (bind_run _ _ _ _ _ (read_run _ _ _ Hr)) in H.
    rewrite (bind_run _ _ _ _ _ (binomial_run _ _ _ _)) in H.
    rewrite flips_first in H.
    eapply body_agg_Ok in H
      as (df' & y & v & ys & pAA & pAB & Hm & Hf & Hy & Hv & Hys & HpA & HpB & H);
      [|exact Hr].
    assert (nrows df' = nrows df) as Hn.
    { unfold nrows. by rewrite (replicate_frame_agg_index _ _ _ _ _ Hf). }
    eapply IH in H as (rs & Htrace & Hbits); [|simpl; apply lookup_insert_eq].
    simpl in Htrace.
    exists (Rep (flips w (nrows df) 0) (OLS y true v NonRobust)
              (OLS ys true v NonRobust) :: rs).
    split.
    + rewrite Htrace. csimpl. unfold rep_events at 2. simpl.
      by rewrite <- !app_assoc.
    + intros [|j] rp Hj; [by injection Hj as <-|].
      simpl in Hj. rewrite (Hbits j rp Hj), Hn. by apply flips_next.
Qed.
End Flips.

Section RunFlips.
Variable to_datetime : cell → option Z.
Variable bucketing : string → option (Z → Z).
Variable fit : fit_request → option num.

(** The replicates of a run are dealt the flips of the stream one after
    the other, as many each as the data has clusters. *)
Lemma ModelQuality_flips data tv lv ov F cv MDE sims method agg w src res w' keys rs :
  heap w !! data = Some src → frame_wf src →
  ModelQuality to_datetime bucketing fit data tv lv ov F cv MDE sims method agg w
    = (Ok res, w') →
  observation_keys to_datetime bucketing src tv lv F (negb agg) = Ok keys →
  trace w' = trace w ++ (rs ≫= rep_events ov) →
  ∀ j rp, rs !! j = Some rp →
    rep_bits rp = flips w (length (remove_dups keys)) j.
Proof.
  intros Hsrc Hwf H Hkeys Htrace. destruct agg; simpl in Hkeys.
  - apply (ModelQuality_agg_Ok _ _ _ _ _ _ _ _ _ _ _ _ _ src) in H
      as (r1 & r2 & copy & dfa & AA & AB & Hm & Hcopy & Hdfa & Hr1 & Hr2 & Hne & H & ->);
      [|done].
    destruct (agg_frame_Ok _ _ src tv lv ov F cv Hwf dfa Hdfa)
      as (keys' & _ & Hobs & _ & Hidx & _).
    rewrite Hkeys in Hobs. injection Hobs as <-.
    eapply loop_agg_flips in H as (rs' & Htrace' & Hbits);
      [|simpl; apply lookup_insert_eq].
    simpl in Htrace'. rewrite Htrace in Htrace'.
    apply app_inv_head, rep_events_inj in Htrace' as <-.
    intros j rp Hj. rewrite (Hbits j rp Hj). unfold nrows.
    by rewrite Hidx, length_group_keys.
  - apply (ModelQuality_order_Ok _ _ _ _ _ _ _ _ _ _ _ _ _ src) in H
      as (r & df0 & G & AA & AB & Hm & Hdf0 & HG & Hr & H & ->); [|done].
    destruct (order_frame_Ok _ _ src tv lv ov F cv Hwf df0 Hdf0)
      as (keys' & _ & Hobs & _ & _ & _ & _ & HG' & _).
    rewrite Hkeys in Hobs. injection Hobs as <-.
    rewrite HG in HG'. injection HG' as ->.
    eapply loop_order_flips in H as (rs' & Htrace' & Hbits);
      [|simpl; apply lookup_insert_eq].
    simpl in Htrace'. rewrite Htrace in Htrace'.
    apply app_inv_head, rep_events_inj in Htrace' as <-.
    intros j rp Hj. rewrite (Hbits j rp Hj).
    rewrite (unique_cluster_ids keys _ (elem_of_order_rows keys)), length_fmap.
    by rewrite <- (length_drawn_clusters false keys).
Qed.
End RunFlips.

(** ** What a replicate is determined by *)


(** The flips and the outcome column determine the A/A request of a
    replicate; with the effect size, its A/B request too. *)
Lemma rep_good_determined agg method MDE1 MDE2 ov src1 src2 keys rp1 rp2 :
  ov ∉ reserved agg → cols src1 !! ov = cols src2 !! ov →
  rep_good agg method MDE1 ov src1 keys rp1 →
  rep_good agg method MDE2 ov src2 keys rp2 →
  rep_bits rp1 = rep_bits rp2 →
  rep_AA rp1 = rep_AA rp2 ∧ (MDE1 = MDE2 → rp1 = rp2).
Proof.
  intros Hov Hcol (_ & xs1 & _ & HB1 & HA1 & Hout1) (_ & xs2 & _ & HB2 & HA2 & Hout2)
    Hbits.
  specialize (Hout1 Hov). specialize (Hout2 Hov).
  assert (xs1 = xs2) as <-.
  { apply numeric_inj. unfold analysis_outcome in Hout1, Hout2.
    rewrite Hcol in Hout1. rewrite Hout1 in Hout2. by injection Hout2. }
  assert (ov ≠ "outcome_sim") as Hne.
  { intros ->. apply Hov. destruct agg; simpl; rewrite !elem_of_cons; auto. }
  rewrite decide_False in HA1, HA2 by done.
  rewrite Hbits in HA1, HB1.
  split; [by rewrite HA1, HA2|].
  intros <-. destruct rp1, rp2. simpl in *. by subst.
Qed.

Lemma reps_determined agg method MDE1 MDE2 ov src1 src2 keys rs1 rs2 :
  ov ∉ reserved agg → cols src1 !! ov = cols src2 !! ov →
  Forall (rep_good agg method MDE1 ov src1 keys) rs1 →
  Forall (rep_good agg method MDE2 ov src2 keys) rs2 →
  rep_bits <$> rs1 = rep_bits <$> rs2 →
  rep_AA <$> rs1 = rep_AA <$> rs2 ∧ (MDE1 = MDE2 → rs1 = rs2).
Proof.
  intros Hov Hcol H1. revert rs2.
  induction H1 as [|rp1 rs1 Hg1 _ IH]; intros [|rp2 rs2] H2 Hbits; try done.
  apply list.Forall_cons in H2 as [Hg2 H2].
  rewrite !fmap_cons in Hbits. injection Hbits as Hb Hbits.
  destruct (IH rs2 H2 Hbits) as [IHA IHall].
  destruct (rep_good_determined _ _ _ _ _ _ _ _ _ _ Hov Hcol Hg1 Hg2 Hb) as [HA Hall].
  split; [rewrite !fmap_cons; by f_equal|].
  intros HM. f_equal; auto.
Qed.

Lemma flips_determine_bits (rs1 rs2 : list rep) (f : nat → list bool) :
  length rs1 = length rs2 →
  (∀ j rp, rs1 !! j = Some rp → rep_bits rp = f j) →
  (∀ j rp, rs2 !! j = Some rp → rep_bits rp = f j) →
  rep_bits <$> rs1 = rep_bits <$> rs2.
Proof.
  intros Hlen H1 H2. apply list_eq. intros j. rewrite !list_lookup_fmap.
  destruct (rs1 !! j) as [rp1|] eqn:E1, (rs2 !! j) as [rp2|] eqn:E2; simpl.
  - by rewrite (H1 j rp1), (H2 j rp2).
  - apply lookup_lt_Some in E1. apply lookup_ge_None in E2. lia.
  - apply lookup_lt_Some in E2. apply lookup_ge_None in E1. lia.
  - done.
Qed.

Lemma np_mean_NaN xs : np_mean xs = NaN ↔ xs = [].
Proof. by destruct xs. Qed.

Section Further.
Variable to_datetime : cell → option Z.
Variable bucketing : string → option (Z → Z).
Variable fit : fit_request → option num.

(** X1.  The replicates of a run use successive flips of the random
    stream: with [k] distinct clusters, replicate number [j] (from 0) is
    dealt the flips number [j * k] to [j * k + k - 1] after those consumed
    before the call; no flip is used twice. *)
Theorem replicates_use_successive_flips
    data tv lv ov F cv MDE sims method agg w src res w' :
  frame_wf src →
  heap w !! data = Some src →
  ModelQuality to_datetime bucketing fit data tv lv ov F cv MDE sims method agg w
    = (Ok res, w') →
  ∃ keys rs,
    observation_keys to_datetime bucketing src tv lv F (negb agg) = Ok keys ∧
    trace w' = trace w ++ (rs ≫= rep_events ov) ∧
    Z.of_nat (length rs) = Z.max 0 sims ∧
    let k := length (remove_dups keys) in
    ∀ j rp, rs !! j = Some rp →
      rep_bits rp = (λ i, coins w (drawn w + j * k + i)%nat) <$> seq 0 k.
Proof.
  intros Hwf Hsrc Hrun.
  destruct (ModelQuality_replicates _ _ _ _ _ _ _ _ _ _ _ _ _ _ _ _ _ Hsrc Hwf Hrun)
    as (keys & rs & df0 & r & dfN & Hk & _ & _ & _ & _ & _ & _ & _ & _ & Hlen & _
        & _ & _ & _ & Htrace & _).
  exists keys, rs. split; [done|]. split; [done|]. split; [lia|].
  intros k j rp Hj.
  apply (ModelQuality_flips _ _ _ _ _ _ _ _ _ _ _ _ _ _ _ _ _ _ _ Hsrc Hwf Hrun Hk
           Htrace j rp Hj).
Qed.


(** X3.  The Type I error estimate does not depend on the effect size:
    two calls that differ in MDE only, started with the same random stream,
    deal the same flips, give their A/A fits the same requests and return
    the same first component.  (The outcome column is not named like a
    working column.) *)
Theorem type_I_error_ignores_MDE
    data tv lv ov F cv MDE1 MDE2 sims method agg w src res1 res2 w1 w2 :
  ov ∉ reserved agg →
  frame_wf src →
  heap w !! data = Some src →
  ModelQuality to_datetime bucketing fit data tv lv ov F cv MDE1 sims method agg w
    = (Ok res1, w1) →
  ModelQuality to_datetime bucketing fit data tv lv ov F cv MDE2 sims method agg w
    = (Ok res2, w2) →
  ∃ rs1 rs2,
    trace w1 = trace w ++ (rs1 ≫= rep_events ov) ∧
    trace w2 = trace w ++ (rs2 ≫= rep_events ov) ∧
    rep_bits <$> rs1 = rep_bits <$> rs2 ∧
    rep_AA <$> rs1 = rep_AA <$> rs2 ∧
    res1 !! 0%nat = res2 !! 0%nat.
Proof.
  intros Hov Hwf Hsrc Hrun1 Hrun2.
  destruct (ModelQuality_replicates _ _ _ _ _ _ _ _ _ _ _ _ _ _ _ _ _ Hsrc Hwf Hrun1)
    as (keys & rs1 & ? & ? & ? & Hk1 & _ & _ & _ & _ & _ & _ & _ & _ & Hlen1 & Hg1
        & _ & _ & _ & Ht1 & ->).
  destruct (ModelQuality_replicates _ _ _ _ _ _ _ _ _ _ _ _ _ _ _ _ _ Hsrc Hwf Hrun2)
    as (keys2 & rs2 & ? & ? & ? & Hk2 & _ & _ & _ & _ & _ & _ & _ & _ & Hlen2 & Hg2
        & _ & _ & _ & Ht2 & ->).
  rewrite Hk1 in Hk2. injection Hk2 as <-.
  assert (rep_bits <$> rs1 = rep_bits <$> rs2) as Hbits.
  { apply (flips_determine_bits _ _ (flips w (length (remove_dups keys))));
      [congruence| |].
    - by apply (ModelQuality_flips _ _ _ _ _ _ _ _ _ _ _ _ _ _ _ _ _ _ _ Hsrc Hwf Hrun1).
    - by apply (ModelQuality_flips _ _ _ _ _ _ _ _ _ _ _ _ _ _ _ _ _ _ _ Hsrc Hwf Hrun2). }
  destruct (reps_determined _ _ _ _ _ _ _ _ _ _ Hov eq_refl Hg1 Hg2 Hbits) as [HAA _].
  exists rs1, rs2. split; [done|]. split; [done|]. split; [done|]. split; [done|].
  assert (∀ rs : list rep,
            (λ r, indicator fit (5 # 100) (rep_AA r)) <$> rs
            = indicator fit (5 # 100) <$> (rep_AA <$> rs)) as E
    by (intros; by rewrite <- list_fmap_compose).
  simpl. by rewrite !E, HAA.
Qed.

(** X4.  At order level with method mlm, both fits of every replicate
    are mixed linear models of a response on an intercept and the treatment
    labels, over as many rows as the caller's data has observations,
    grouped by the cluster numbers of the rows (two rows have the same
    group exactly when they have the same region-time key). *)
Theorem order_level_mlm_is_grouped_by_cluster
    data tv lv ov F cv MDE sims w src res w' :
  frame_wf src →
  heap w !! data = Some src →
  ModelQuality to_datetime bucketing fit data tv lv ov F cv MDE sims "mlm" false w
    = (Ok res, w') →
  ∃ keys rs,
    observation_keys to_datetime bucketing src tv lv F true = Ok keys ∧
    length keys = nrows src ∧
    trace w' = trace w ++ (rs ≫= rep_events ov) ∧
    Z.of_nat (length rs) = Z.max 0 sims ∧
    let rows := analysis_rows false keys in
    let groups := cluster_id keys <$> rows in
    rows ≡ₚ keys ∧
    (∀ i j ki kj, rows !! i = Some ki → rows !! j = Some kj →
       (groups !! i = groups !! j ↔ ki = kj)) ∧
    Forall (λ rp,
      ∃ y y_sim v,
        rep_AA rp = MixedLM y true v groups ∧
        rep_AB rp = MixedLM y_sim true v groups ∧
        length y = nrows src ∧ length y_sim = nrows src ∧
        length v = nrows src ∧ labels_by_cluster rows v) rs.
Proof.
  intros Hwf Hsrc Hrun.
  destruct (ModelQuality_replicates _ _ _ _ _ _ _ _ _ _ _ _ _ _ _ _ _ Hsrc Hwf Hrun)
    as (keys & rs & df0 & r & dfN & Hk & Hkn & _ & _ & _ & _ & _ & _ & _ & Hlen
        & Hgood & _ & _ & _ & Htrace & _).
  exists keys, rs. split; [done|]. split; [done|]. split; [done|].
  split; [lia|]. simpl.
  pose proof (analysis_rows_spec false keys) as Hperm. simpl in Hperm.
  split; [done|]. split.
  { intros i j ki kj Hi Hj. rewrite !list_lookup_fmap.
    unfold analysis_rows in Hi, Hj. rewrite Hi, Hj. simpl. split.
    - intros Heq. apply (inj Some) in Heq.
      apply (cluster_id_inj keys) in Heq; [done|..];
        rewrite <- Hperm; by eapply list_elem_of_lookup_2.
    - by intros ->. }
  assert (length (analysis_rows false keys) = nrows src) as Hn
    by (by rewrite Hperm).
  eapply list.Forall_impl; [exact Hgood|].
  intros rp (_ & xs & Hxs & HB & HA & _).
  unfold build, build_order in HA, HB. simpl in HA, HB.
  eexists _, _, _. split; [exact HA|]. split; [exact HB|].
  rewrite length_synthetic, length_labels by (by rewrite length_labels).
  split; [|split; [congruence|split; [done|apply labels_by_cluster_labels]]].
  case_decide; [|by rewrite length_numeric, Hxs].
  rewrite length_synthetic by (by rewrite length_labels). congruence.
Qed.

(** X5.  In the aggregated mode both fits of every replicate are ordinary
    least squares on the treatment labels with the plain (not
    cluster-robust) covariance, over one row per cluster; the response of
    the A/A fit is the mean of the outcome within every cluster.  (The
    outcome column is not named like a working column.) *)
Theorem aggregated_fits_are_plain_ols_on_cluster_means
    data tv lv ov F cv MDE sims method w src res w' :
  ov ∉ reserved true →
  frame_wf src →
  heap w !! data = Some src →
  ModelQuality to_datetime bucketing fit data tv lv ov F cv MDE sims method true w
    = (Ok res, w') →
  ∃ keys rs,
    observation_keys to_datetime bucketing src tv lv F false = Ok keys ∧
    length keys = nrows src ∧
    trace w' = trace w ++ (rs ≫= rep_events ov) ∧
    Z.of_nat (length rs) = Z.max 0 sims ∧
    let clusters := group_keys keys in
    NoDup clusters ∧ (∀ k, k ∈ clusters ↔ k ∈ keys) ∧
    Forall (λ rp,
      ∃ ys y_sim v const,
        cols src !! ov = Some (numeric ys) ∧
        rep_AA rp
          = OLS (numeric ((λ g, Qmean (group_values keys ys g)) <$> clusters))
              const v NonRobust ∧
        rep_AB rp = OLS y_sim const v NonRobust ∧
        length y_sim = length clusters ∧ length v = length clusters) rs.
Proof.
  intros Hov Hwf Hsrc Hrun.
  destruct (ModelQuality_replicates _ _ _ _ _ _ _ _ _ _ _ _ _ _ _ _ _ Hsrc Hwf Hrun)
    as (keys & rs & df0 & r & dfN & Hk & Hkn & _ & _ & _ & _ & _ & _ & _ & Hlen
        & Hgood & _ & _ & _ & Htrace & _).
  exists keys, rs. split; [done|]. split; [done|]. split; [done|].
  split; [lia|]. simpl.
  split; [apply NoDup_group_keys|]. split; [apply elem_of_group_keys|].
  assert (ov ≠ "outcome_sim") as Hne.
  { intros ->. apply Hov. simpl. rewrite !elem_of_cons. auto. }
  eapply list.Forall_impl; [exact Hgood|].
  intros rp (_ & xs & Hxs & HB & HA & Hout). specialize (Hout Hov).
  rewrite decide_False in HA by done. simpl in HA, HB, Hout, Hxs.
  destruct (cols src !! ov) as [col|] eqn:Hcol; [|done]. simpl in Hout.
  unfold group_mean in Hout.
  destruct (mapM as_num col) as [ys|] eqn:Hys; [|done]. simpl in Hout.
  apply mapM_as_num_Some in Hys as ->.
  injection Hout as Hout.
  exists ys, (synthetic MDE (labels (group_keys keys) (rep_bits rp) (group_keys keys)) xs),
    (labels (group_keys keys) (rep_bits rp) (group_keys keys)), true.
  split; [done|]. split.
  { rewrite HA. f_equal. rewrite <- Hout. unfold numeric.
    by rewrite <- list_fmap_compose. }
  split; [done|].
  rewrite length_synthetic, length_labels by (by rewrite length_labels).
  done.
Qed.
End Further.

(** ** Failures of the preparation *)



Section Failures.
Variable to_datetime : cell → option Z.
Variable bucketing : string → option (Z → Z).
Variable fit : fit_request → option num.


(** X7.  When [pd.to_datetime] fails on the time column (line 39),
    ModelQuality raises before the loop: no flip was drawn and no model
    fitted. *)
Theorem unconvertible_time_raises_before_simulation
    data tv lv ov F cv MDE sims method agg w src raw :
  method ∈ ["ols"; "mlm"] → ¬ (agg = true ∧ method = "mlm") →
  heap w !! data = Some src →
  NoDup (columns_of tv lv ov cv) →
  (∀ c, c ∈ columns_of tv lv ov cv → is_Some (cols src !! c)) →
  cols src !! tv = Some raw → mapM to_datetime raw = None →
  ∃ e w',
    ModelQuality to_datetime bucketing fit data tv lv ov F cv MDE sims method agg w
      = (Raise e, w') ∧
    trace w' = trace w ∧ drawn w' = drawn w.
Proof.
  intros Hm Hagg Hsrc Hnd Hall Hraw Ht.
  destruct (select_run src _ Hnd Hall) as [picked Hsel].
  pose proof (select_Ok _ _ _ Hsel) as (_ & _ & Hcols).
  pose proof (columns_of_NoDup _ _ _ _ Hnd) as (_ & _ & _ & Htv & _).
  assert (convert_time to_datetime tv picked = Raise ValueError) as Hconv.
  { unfold convert_time, getitem. rewrite Hcols, decide_True, Hraw by done.
    simpl. by rewrite Ht. }
  unfold ModelQuality.
  rewrite bool_decide_eq_false_2 by (by intros ?).
  assert (agg && bool_decide (method = "mlm") = false) as ->.
  { destruct agg; [|done]. simpl. apply bool_decide_eq_false_2. naive_solver. }
  unfold columns_of in Hsel. simpl in Hsel.
  unfold mbind, M_bind, read, lift, alloc, update, set_heap. simpl.
  rewrite Hsrc. simpl. rewrite Hsel. simpl. rewrite lookup_insert_eq, Hconv.
  by eexists _, _.
Qed.

(** X8.  With a frequency string pandas does not know (lines 46 and 75),
    ModelQuality raises before the loop: no flip was drawn and no model
    fitted. *)
Theorem unknown_frequency_raises_before_simulation
    data tv lv ov F cv MDE sims method agg w src raw :
  method ∈ ["ols"; "mlm"] → ¬ (agg = true ∧ method = "mlm") →
  heap w !! data = Some src →
  NoDup (columns_of tv lv ov cv) →
  (∀ c, c ∈ columns_of tv lv ov cv → is_Some (cols src !! c)) →
  cols src !! tv = Some raw → is_Some (mapM to_datetime raw) →
  bucketing F = None →
  ∃ e w',
    ModelQuality to_datetime bucketing fit data tv lv ov F cv MDE sims method agg w
      = (Raise e, w') ∧
    trace w' = trace w ∧ drawn w' = drawn w.
Proof.
  intros Hm Hagg Hsrc Hnd Hall Hraw [times Ht] HF.
  pose proof (columns_of_NoDup _ _ _ _ Hnd) as (_ & _ & _ & Htv & _).
  destruct (private_copy_run to_datetime src _ tv raw times Hnd Htv Hall Hraw Ht)
    as [copy Hcopy].
  pose proof Hcopy as Hc. unfold private_copy in Hc.
  apply result_bind_Ok in Hc as (picked & Hsel & Hconv).
  unfold ModelQuality.
  rewrite bool_decide_eq_false_2 by (by intros ?).
  assert (agg && bool_decide (method = "mlm") = false) as ->.
  { destruct agg; [|done]. simpl. apply bool_decide_eq_false_2. naive_solver. }
  unfold columns_of in Hsel. simpl in Hsel.
  unfold mbind, M_bind, read, lift, alloc, update, set_heap. simpl.
  rewrite Hsrc. simpl. rewrite Hsel. simpl. rewrite lookup_insert_eq, Hconv.
  simpl. destruct agg; cbn [heap coins drawn trace].
  - rewrite lookup_insert_eq. simpl. unfold groupby_mean. rewrite HF. simpl.
    by eexists _, _.
  - rewrite lookup_insert_eq. unfold assign_period_city. rewrite HF. simpl.
    by eexists _, _.
Qed.

(** X9.  A call that returns gives two values, and they are NaN exactly
    when no replicate was run, that is when [sims] is zero or negative;
    otherwise both are in [0, 1]. *)
Theorem nan_exactly_without_replicates
    data tv lv ov F cv MDE sims method agg w src res w' :
  frame_wf src →
  heap w !! data = Some src →
  ModelQuality to_datetime bucketing fit data tv lv ov F cv MDE sims method agg w
    = (Ok res, w') →
  ∃ x y,
    res = [x; y] ∧
    (x = NaN ↔ (sims <= 0)%Z) ∧ (y = NaN ↔ (sims <= 0)%Z) ∧
    ((0 < sims)%Z → in_unit x ∧ in_unit y) ∧
    ((sims <= 0)%Z → trace w' = trace w ∧ drawn w' = drawn w).
Proof.
  intros Hwf Hsrc Hrun.
  destruct (ModelQuality_replicates _ _ _ _ _ _ _ _ _ _ _ _ _ _ _ _ _ Hsrc Hwf Hrun)
    as (keys & rs & df0 & r & dfN & _ & _ & _ & _ & _ & _ & _ & _ & _ & Hlen & _
        & _ & _ & Hdrawn & Htrace & ->).
  eexists _, _. split; [reflexivity|].
  assert (∀ f : rep → Q, f <$> rs = [] ↔ (sims <= 0)%Z) as Hnil.
  { intros f. split.
    - intros ->%fmap_nil_inv. simpl in Hlen. lia.
    - intros Hs. assert (rs = []) as -> by (apply length_zero_iff_nil; lia).
      done. }
  rewrite !np_mean_NaN, !Hnil. split; [done|]. split; [done|]. split.
  - intros Hs.
    assert (∀ f : rep → fit_request,
              in_unit (np_mean ((λ r, indicator fit (5 # 100) (f r)) <$> rs))) as Hu.
    { intros f. destruct rs as [|rp rs]; [simpl in Hlen; lia|].
      apply (Qmean_indicators ((λ r, indicator fit (5 # 100) (f r)) <$> rp :: rs));
        [done|].
      apply Forall_fmap, Forall_true. intros rp'. simpl. unfold indicator.
      destruct (fit (f rp')); [apply significant_cases|auto]. }
    split; apply Hu.
  - intros Hs. assert (rs = []) as -> by (apply length_zero_iff_nil; lia).
    simpl in Htrace. rewrite app_nil_r in Htrace. split; [done|].
    rewrite Hdrawn. replace (Z.to_nat sims) with 0%nat by lia. lia.
Qed.
End Failures.

(** ** On a valid input only the estimators can fail *)


Section Estimators.
Variable fit : fit_request → option num.





End Estimators.

Section OnlyEstimators.
Variable to_datetime : cell → option Z.
Variable bucketing : string → option (Z → Z).
Variable fit : fit_request → option num.

End OnlyEstimators.

(** ** The rows are sorted by cluster *)

Section Sorted.
Context {A : Type} (leb : A → A → bool) (P : A → Prop).
Hypothesis leb_total : ∀ a b, P a → P b → leb a b = false → leb b a = true.
Hypothesis leb_trans :
  ∀ a b c, P a → P b → P c → leb a b = true → leb b c = true → leb a c = true.

Lemma insert_sorted_StronglySorted x l :
  P x → Forall P l →
  StronglySorted (λ a b, leb a b = true) l →
  StronglySorted (λ a b, leb a b = true) (insert_sorted leb x l).
Proof.
  intros Hx HP Hl. induction Hl as [|y l Hl IH Hy]; simpl.
  - by repeat constructor.
  - apply list.Forall_cons in HP as [Py HP].
    destruct (leb x y) eqn:E.
    + constructor; [by constructor|]. constructor; [done|].
      rewrite list.Forall_forall in Hy, HP. apply list.Forall_forall.
      intros z Hz. apply (leb_trans x y z); auto.
    + constructor; [by apply IH|]. rewrite insert_sorted_Permutation.
      constructor; [by apply leb_total|done].
Qed.

Lemma isort_StronglySorted l :
  Forall P l → StronglySorted (λ a b, leb a b = true) (isort leb l).
Proof.
  induction 1 as [|x l Hx Hl IH]; simpl; [constructor|].
  apply insert_sorted_StronglySorted; [done| |done].
  unfold isort in *. by rewrite (isort_Permutation leb l).
Qed.
End Sorted.

Lemma StronglySorted_fmap_inv {A B} (R : relation B) (f : A → B) l :
  StronglySorted R (f <$> l) → StronglySorted (λ x y, R (f x) (f y)) l.
Proof.
  induction l as [|x l IH]; [constructor|].
  rewrite fmap_cons. intros H. apply StronglySorted_inv in H as [Hl Hx].
  constructor; [by apply IH|].
  apply list.Forall_forall. intros y Hy. rewrite list.Forall_forall in Hx.
  apply Hx. by apply list_elem_of_fmap_2.
Qed.

Lemma StronglySorted_weaken {A} (R1 R2 : relation A) l :
  (∀ x y, R1 x y → R2 x y) → StronglySorted R1 l → StronglySorted R2 l.
Proof.
  intros HR. induction 1 as [|x l Hl IH Hx]; constructor; [done|].
  eapply list.Forall_impl; [exact Hx|]. intros y. apply HR.
Qed.

Lemma StronglySorted_remove_dups `{EqDecision A} (R : relation A) (l : list A) :
  StronglySorted R l → StronglySorted R (remove_dups l).
Proof.
  induction 1 as [|x l Hl IH Hx]; [constructor|].
  change (remove_dups (x :: l))
    with (if decide_rel elem_of x l then remove_dups l else x :: remove_dups l).
  destruct (decide_rel elem_of x l); [done|].
  constructor; [done|]. rewrite list.Forall_forall in Hx.
  apply list.Forall_forall. intros y Hy. apply Hx. by apply elem_of_remove_dups.
Qed.

Lemma cell_leb_of_nat a b :
  cell_leb (cell_of_nat a) (cell_of_nat b) = true ↔ (a ≤ b)%nat.
Proof.
  unfold cell_of_nat. simpl. rewrite Qle_bool_iff, <- Zle_Qle. lia.
Qed.

Lemma group_number_spec (groups : list label) k :
  k ∈ groups → groups !! group_number groups k = Some k.
Proof.
  intros Hk. unfold group_number.
  destruct (list_find (λ g, g = k) groups) as [[j g]|] eqn:E; simpl.
  - by apply list_find_Some in E as (Hj & -> & _).
  - apply list_find_None in E. rewrite list.Forall_forall in E. by destruct (E k).
Qed.

Section SortedRows.
Context (keys : list label).

Let number (k : label) : nat := group_number (group_keys keys) k.
Let by_number : relation label := λ k1 k2, (number k1 ≤ number k2)%nat.

Lemma sorted_pairs_rows (l : list (cell * nat)) :
  Forall (λ p, ∃ k, keys !! p.2 = Some k ∧ p.1 = cluster_id keys k) l →
  cluster_id keys <$> take_rows (snd <$> l) keys = fst <$> l.
Proof.
  induction 1 as [|[g i] l (k & Hk & Hg) _ IH]; [done|].
  simpl in Hk, Hg. unfold take_rows in *. rewrite !fmap_cons. csimpl.
  rewrite Hk. csimpl. by rewrite IH, Hg.
Qed.

Lemma row_pairs :
  Forall (λ p : cell * nat, ∃ k, keys !! p.2 = Some k ∧ p.1 = cluster_id keys k)
    (zip (cluster_id keys <$> keys) (seq 0 (length (cluster_id keys <$> keys)))).
Proof.
  apply list.Forall_forall. intros [g i] Hin.
  apply list_elem_of_lookup in Hin as [j Hj].
  apply lookup_zip_with_Some in Hj as (g' & i' & [= <- <-] & Hg & Hi).
  apply lookup_seq in Hi as [-> _]. simpl in *.
  rewrite list_lookup_fmap in Hg.
  destruct (keys !! j) as [k|]; [|done]. injection Hg as <-. eauto.
Qed.

(** Line 82: after [sort_values] the rows are in the order of their
    cluster numbers. *)
Lemma analysis_rows_sorted : StronglySorted by_number (analysis_rows false keys).
Proof.
  unfold analysis_rows, row_order, sort_perm.
  set (pairs := zip _ _).
  set (leb := λ a b : cell * nat, cell_leb a.1 b.1).
  pose proof row_pairs as Hpairs. fold pairs in Hpairs.
  assert (Forall (λ p : cell * nat, ∃ k, keys !! p.2 = Some k ∧
                                        p.1 = cluster_id keys k) (isort leb pairs))
    as Hsorted by (by rewrite isort_Permutation).
  assert (StronglySorted (λ a b, leb a b = true) (isort leb pairs)) as Hss.
  { apply (isort_StronglySorted leb (λ p, ∃ n, p.1 = cell_of_nat n)).
    - intros [a ia] [b ib] [n Hn] [m Hm]. simpl in Hn, Hm. subst a b.
      unfold leb. simpl. intros Hf.
      apply cell_leb_of_nat. destruct (decide (n ≤ m)%nat) as [Hle|]; [|lia].
      apply cell_leb_of_nat in Hle. simpl in *. congruence.
    - intros [a ia] [b ib] [c ic] [n Hn] [m Hm] [o Ho]. simpl in Hn, Hm, Ho.
      subst a b c. unfold leb. cbn [fst].
      rewrite !cell_leb_of_nat. lia.
    - eapply list.Forall_impl; [exact Hpairs|]. intros p (k & _ & ->). by eexists. }
  apply (StronglySorted_weaken
           (λ k1 k2, cell_leb (cluster_id keys k1) (cluster_id keys k2) = true)).
  { intros k1 k2. unfold cluster_id. by rewrite cell_leb_of_nat. }
  apply StronglySorted_fmap_inv
    with (R := λ c1 c2, cell_leb c1 c2 = true) (f := cluster_id keys).
  rewrite sorted_pairs_rows by done.
  eapply (StronglySorted_fmap fst (λ a b : cell * nat, leb a b = true));
    [|exact Hss].
  done.
Qed.
End SortedRows.

Lemma StronglySorted_of_lookup {A} (R : relation A) (l : list A) :
  (∀ i j x y, (i < j)%nat → l !! i = Some x → l !! j = Some y → R x y) →
  StronglySorted R l.
Proof.
  induction l as [|x l IH]; intros H; constructor.
  - apply IH. intros i j a b Hij Hi Hj. apply (H (S i) (S j)); [lia|done..].
  - apply list.Forall_forall. intros y Hy.
    apply list_elem_of_lookup in Hy as [j Hj]. apply (H 0%nat (S j)); [lia|done..].
Qed.

Section SortedClusters.
Context (keys : list label).

Lemma group_keys_sorted :
  StronglySorted
    (λ k1 k2, (group_number (group_keys keys) k1
               ≤ group_number (group_keys keys) k2)%nat)
    (group_keys keys).
Proof.
  apply StronglySorted_of_lookup. intros i j x y Hij Hi Hj.
  pose proof (NoDup_group_keys keys) as Hnd.
  rewrite (group_number_lookup _ _ _ Hnd Hi), (group_number_lookup _ _ _ Hnd Hj).
  lia.
Qed.

(** Lines 82-86: the distinct cluster numbers of the sorted rows are the
    clusters in ascending order; that is the order the flips are dealt in. *)
Lemma drawn_clusters_sorted : drawn_clusters false keys = group_keys keys.
Proof.
  apply (StronglySorted_unique_strong
           (λ k1 k2, (group_number (group_keys keys) k1
                      ≤ group_number (group_keys keys) k2)%nat)).
  - intros k1 k2 H1 H2 Hle Hge. apply (group_number_inj keys); [| |lia].
    + apply elem_of_order_rows. unfold drawn_clusters in H1.
      by rewrite elem_of_remove_dups in H1.
    + by apply elem_of_group_keys.
  - apply StronglySorted_remove_dups, analysis_rows_sorted.
  - apply group_keys_sorted.
  - rewrite (proj2 (drawn_clusters_spec false keys)).
    symmetry. apply group_keys_Permutation.
Qed.
End SortedClusters.

Section SortedRun.
Variable to_datetime : cell → option Z.
Variable bucketing : string → option (Z → Z).
Variable fit : fit_request → option num.

(** X11.  At order level the rows the fits are given are sorted by
    cluster number (line 82), a cluster's number being the position of
    its key among the sorted distinct (period, location) keys; and in
    every replicate the flip number [c] is the label of the rows of the
    cluster numbered [c]. *)
Theorem order_level_rows_sorted_by_cluster
    data tv lv ov F cv MDE sims method w src res w' :
  frame_wf src →
  heap w !! data = Some src →
  ModelQuality to_datetime bucketing fit data tv lv ov F cv MDE sims method false w
    = (Ok res, w') →
  ∃ keys rs,
    observation_keys to_datetime bucketing src tv lv F true = Ok keys ∧
    trace w' = trace w ++ (rs ≫= rep_events ov) ∧
    Z.of_nat (length rs) = Z.max 0 sims ∧
    let clusters := group_keys keys in
    let rows := analysis_rows false keys in
    let number := group_number clusters in
    StronglySorted (λ k1 k2, (number k1 ≤ number k2)%nat) rows ∧
    (∀ k, k ∈ keys → clusters !! number k = Some k) ∧
    (∀ i k, clusters !! i = Some k → number k = i) ∧
    Forall (λ rp,
      length (rep_bits rp) = length clusters ∧
      ∀ j k b,
        rows !! j = Some k → rep_bits rp !! number k = Some b →
        exog_of (rep_AA rp) !! j = Some (cell_of_bool b) ∧
        exog_of (rep_AB rp) !! j = Some (cell_of_bool b)) rs.
Proof.
  intros Hwf Hsrc Hrun.
  destruct (ModelQuality_replicates _ _ _ _ _ _ _ _ _ _ _ _ _ _ _ _ _ Hsrc Hwf Hrun)
    as (keys & rs & df0 & r & dfN & Hk & _ & _ & _ & _ & _ & _ & _ & _ & Hlen
        & Hgood & _ & _ & _ & Htrace & _).
  exists keys, rs. split; [done|]. split; [done|]. split; [lia|]. simpl.
  split; [apply analysis_rows_sorted|].
  assert (∀ k, k ∈ keys →
            group_keys keys !! group_number (group_keys keys) k = Some k) as Hnum.
  { intros k Hin. by apply group_number_spec, elem_of_group_keys. }
  split; [done|].
  split; [intros i k; apply group_number_lookup, NoDup_group_keys|].
  eapply list.Forall_impl; [exact Hgood|].
  intros rp (Hbits & xs & _ & HB & HA & _).
  rewrite drawn_clusters_sorted in Hbits, HA, HB.
  split; [done|]. intros j k b Hj Hb.
  rewrite HA, HB, !exog_of_build.
  assert (k ∈ keys) as Hin
    by (apply elem_of_order_rows; by eapply list_elem_of_lookup_2).
  split; eapply labels_lookup; eauto using NoDup_group_keys.
Qed.
End SortedRun.

(** ** The two modes have the same clusters *)

Lemma row_keys_swap floor times locations ko ka :
  row_keys floor true times locations = Ok ko →
  row_keys floor false times locations = Ok ka →
  ka = reverse <$> ko.
Proof.
  unfold row_keys. intros Ho%of_option_Ok Ha%of_option_Ok.
  revert ko ka Ho Ha.
  induction (zip times locations) as [|[t l] tl IH]; intros ko ka Ho Ha.
  - injection Ho as <-. by injection Ha as <-.
  - simpl in Ho, Ha. destruct t as [| |t]; try done. simpl in Ho, Ha.
    destruct (mapM _ tl) as [ko'|] eqn:Eo in Ho; [|done].
    destruct (mapM _ tl) as [ka'|] eqn:Ea in Ha; [|done].
    injection Ho as <-. injection Ha as <-.
    rewrite fmap_cons. f_equal. by apply IH.
Qed.

Lemma observation_keys_swap to_datetime bucketing src tv lv F ko ka :
  observation_keys to_datetime bucketing src tv lv F true = Ok ko →
  observation_keys to_datetime bucketing src tv lv F false = Ok ka →
  ka = reverse <$> ko.
Proof.
  unfold observation_keys. intros Ho Ha.
  apply result_bind_Ok in Ho as (floor & Hf & Ho).
  apply result_bind_Ok in Ho as (raw & Hraw & Ho).
  apply result_bind_Ok in Ho as (times & Ht & Ho).
  apply result_bind_Ok in Ho as (locs & Hl & Ho).
  rewrite Hf in Ha. simpl in Ha. rewrite Hraw in Ha. simpl in Ha.
  rewrite Ht in Ha. simpl in Ha. rewrite Hl in Ha. simpl in Ha.
  by eapply row_keys_swap.
Qed.

Lemma clusters_swap (ko : list label) :
  length (remove_dups (reverse <$> ko)) = length (remove_dups ko).
Proof. apply length_remove_dups_fmap. intros x y _ _. apply (inj reverse). Qed.

Section Modes.
Variable to_datetime : cell → option Z.
Variable bucketing : string → option (Z → Z).
Variable fit : fit_request → option num.

(** X12.  Aggregation does not change the randomisation: an aggregated
    and an order-level call on the same data, started with the same random
    stream, have the same clusters up to the order of the two key
    components, and their replicates are dealt the same flips, one per
    cluster. *)
Theorem modes_draw_the_same_flips
    data tv lv ov F cv MDE sims m1 m2 w src res1 res2 w1 w2 :
  frame_wf src →
  heap w !! data = Some src →
  ModelQuality to_datetime bucketing fit data tv lv ov F cv MDE sims m1 false w
    = (Ok res1, w1) →
  ModelQuality to_datetime bucketing fit data tv lv ov F cv MDE sims m2 true w
    = (Ok res2, w2) →
  ∃ ko ka rs1 rs2,
    observation_keys to_datetime bucketing src tv lv F true = Ok ko ∧
    observation_keys to_datetime bucketing src tv lv F false = Ok ka ∧
    ka = reverse <$> ko ∧
    length (remove_dups ka) = length (remove_dups ko) ∧
    trace w1 = trace w ++ (rs1 ≫= rep_events ov) ∧
    trace w2 = trace w ++ (rs2 ≫= rep_events ov) ∧
    rep_bits <$> rs1 = rep_bits <$> rs2 ∧
    Forall (λ rp, length (rep_bits rp) = length (remove_dups ko)) rs1 ∧
    drawn w1 = drawn w2.
Proof.
  intros Hwf Hsrc Hrun1 Hrun2.
  destruct (ModelQuality_replicates _ _ _ _ _ _ _ _ _ _ _ _ _ _ _ _ _ Hsrc Hwf Hrun1)
    as (ko & rs1 & ? & ? & ? & Hk1 & _ & _ & _ & _ & _ & _ & _ & _ & Hlen1 & Hg1
        & _ & _ & Hd1 & Ht1 & _).
  destruct (ModelQuality_replicates _ _ _ _ _ _ _ _ _ _ _ _ _ _ _ _ _ Hsrc Hwf Hrun2)
    as (ka & rs2 & ? & ? & ? & Hk2 & _ & _ & _ & _ & _ & _ & _ & _ & Hlen2 & Hg2
        & _ & _ & Hd2 & Ht2 & _).
  simpl in Hk1, Hk2.
  pose proof (observation_keys_swap _ _ _ _ _ _ _ _ Hk1 Hk2) as Hswap.
  assert (length (remove_dups ka) = length (remove_dups ko)) as Hn
    by (rewrite Hswap; apply clusters_swap).
  exists ko, ka, rs1, rs2.
  split; [done|]. split; [done|]. split; [done|]. split; [done|].
  split; [done|]. split; [done|]. split; [|split].
  - apply (flips_determine_bits _ _ (flips w (length (remove_dups ko))));
      [congruence| |].
    + by apply (ModelQuality_flips _ _ _ _ _ _ _ _ _ _ _ _ _ _ _ _ _ _ _ Hsrc Hwf Hrun1).
    + rewrite <- Hn.
      by apply (ModelQuality_flips _ _ _ _ _ _ _ _ _ _ _ _ _ _ _ _ _ _ _ Hsrc Hwf Hrun2).
  - eapply list.Forall_impl; [exact Hg1|]. intros rp [Hb _].
    by rewrite Hb, length_drawn_clusters.
  - rewrite Hd1, Hd2, !length_drawn_clusters. by rewrite Hn.
Qed.
End Modes.

(** ** The further properties on the small data set *)


Lemma toy_run_order_null :
  toy_run "y" 1 2 "ols" false
  = (Ok [Fin (0 # 2); Fin (0 # 2)], (toy_run "y" 1 2 "ols" false).2).
Proof. vm_compute. reflexivity. Qed.

Lemma toy_run_negative :
  toy_run "y" 2 (-1) "ols" false
  = (Ok [NaN; NaN], (toy_run "y" 2 (-1) "ols" false).2).
Proof. vm_compute. reflexivity. Qed.

Lemma toy_reserved agg : "y" ∉ reserved agg.
Proof. destruct agg; apply (bool_decide_unpack _); by vm_compute. Qed.



Lemma toy_method : "ols" ∈ ["ols"; "mlm"].
Proof. by left. Qed.

Lemma toy_not_mlm agg : ¬ (agg = true ∧ "ols" = "mlm").
Proof. by intros [_ ?]. Qed.

Lemma replicates_use_successive_flips_witness :
  frame_wf (toy_frame "y") ∧
  heap (toy_world "y") !! 0%nat = Some (toy_frame "y") ∧
  toy_run "y" 2 2 "ols" false
    = (Ok [Fin (0 # 2); Fin (2 # 2)], (toy_run "y" 2 2 "ols" false).2) ∧
  ∃ keys rs,
    observation_keys toy_datetime toy_bucketing (toy_frame "y") "t" "city" "10" true
      = Ok keys ∧
    Z.of_nat (length rs) = Z.max 0 2 ∧
    ∀ j rp, rs !! j = Some rp →
      rep_bits rp
      = (λ i, coins (toy_world "y")
                (drawn (toy_world "y") + j * length (remove_dups keys) + i)%nat)
          <$> seq 0 (length (remove_dups keys)).
Proof.
  split; [apply toy_frame_wf|]. split; [apply toy_world_data|].
  split; [exact toy_run_order|].
  destruct (replicates_use_successive_flips toy_datetime toy_bucketing toy_fit
              0%nat "t" "city" "y" "10" None 2 2 "ols" false (toy_world "y")
              (toy_frame "y") _ _ (toy_frame_wf "y") (toy_world_data "y")
              toy_run_order)
    as (keys & rs & Hk & _ & Hlen & Hbits).
  exists keys, rs. split; [exact Hk|]. split; [exact Hlen|exact Hbits].
Defined.


Lemma type_I_error_ignores_MDE_witness :
  ("y" ∉ reserved false) ∧ frame_wf (toy_frame "y") ∧
  heap (toy_world "y") !! 0%nat = Some (toy_frame "y") ∧
  toy_run "y" 2 2 "ols" false
    = (Ok [Fin (0 # 2); Fin (2 # 2)], (toy_run "y" 2 2 "ols" false).2) ∧
  toy_run "y" 1 2 "ols" false
    = (Ok [Fin (0 # 2); Fin (0 # 2)], (toy_run "y" 1 2 "ols" false).2) ∧
  ∃ rs1 rs2 : list rep,
    rep_bits <$> rs1 = rep_bits <$> rs2 ∧ rep_AA <$> rs1 = rep_AA <$> rs2 ∧
    [Fin (0 # 2); Fin (2 # 2)] !! 0%nat = [Fin (0 # 2); Fin (0 # 2)] !! 0%nat.
Proof.
  split; [apply toy_reserved|]. split; [apply toy_frame_wf|].
  split; [apply toy_world_data|]. split; [exact toy_run_order|].
  split; [exact toy_run_order_null|].
  destruct (type_I_error_ignores_MDE toy_datetime toy_bucketing toy_fit
              0%nat "t" "city" "y" "10" None 2 1 2 "ols" false (toy_world "y")
              (toy_frame "y") _ _ _ _ (toy_reserved false) (toy_frame_wf "y")
              (toy_world_data "y") toy_run_order toy_run_order_null)
    as (rs1 & rs2 & _ & _ & Hbits & HAA & Hres).
  exists rs1, rs2. split; [exact Hbits|]. split; [exact HAA|exact Hres].
Defined.

Lemma order_level_mlm_is_grouped_by_cluster_witness :
  frame_wf (toy_frame "y") ∧
  heap (toy_world "y") !! 0%nat = Some (toy_frame "y") ∧
  toy_run "y" 1 2 "mlm" false
    = (Ok [Fin (0 # 2); Fin (0 # 2)], (toy_run "y" 1 2 "mlm" false).2) ∧
  ∃ keys rs,
    observation_keys toy_datetime toy_bucketing (toy_frame "y") "t" "city" "10" true
      = Ok keys ∧
    Z.of_nat (length rs) = Z.max 0 2 ∧
    Forall (λ rp,
      ∃ y y_sim v,
        let groups := cluster_id keys <$> analysis_rows false keys in
        rep_AA rp = MixedLM y true v groups ∧
        rep_AB rp = MixedLM y_sim true v groups ∧
        length v = nrows (toy_frame "y")) rs.
Proof.
  split; [apply toy_frame_wf|]. split; [apply toy_world_data|].
  split; [exact toy_run_null|].
  destruct (order_level_mlm_is_grouped_by_cluster toy_datetime toy_bucketing toy_fit
              0%nat "t" "city" "y" "10" None 1 2 (toy_world "y")
              (toy_frame "y") _ _ (toy_frame_wf "y") (toy_world_data "y")
              toy_run_null)
    as (keys & rs & Hk & _ & _ & Hlen & _ & _ & Hreq).
  exists keys, rs. split; [exact Hk|]. split; [exact Hlen|].
  eapply list.Forall_impl; [exact Hreq|].
  intros rp (y & y_sim & v & HA & HB & _ & _ & Hv & _).
  exists y, y_sim, v. split; [exact HA|]. split; [exact HB|exact Hv].
Defined.

Lemma aggregated_fits_are_plain_ols_on_cluster_means_witness :
  ("y" ∉ reserved true) ∧ frame_wf (toy_frame "y") ∧
  heap (toy_world "y") !! 0%nat = Some (toy_frame "y") ∧
  toy_run "y" 2 2 "ols" true
    = (Ok [Fin (0 # 2); Fin (1 # 2)], (toy_run "y" 2 2 "ols" true).2) ∧
  ∃ keys rs,
    observation_keys toy_datetime toy_bucketing (toy_frame "y") "t" "city" "10" false
      = Ok keys ∧
    Z.of_nat (length rs) = Z.max 0 2 ∧
    Forall (λ rp,
      ∃ ys y_sim v const,
        cols (toy_frame "y") !! "y" = Some (numeric ys) ∧
        rep_AA rp
          = OLS (numeric ((λ g, Qmean (group_values keys ys g)) <$> group_keys keys))
              const v NonRobust ∧
        rep_AB rp = OLS y_sim const v NonRobust) rs.
Proof.
  split; [apply toy_reserved|]. split; [apply toy_frame_wf|].
  split; [apply toy_world_data|]. split; [exact toy_run_agg|].
  destruct (aggregated_fits_are_plain_ols_on_cluster_means toy_datetime toy_bucketing
              toy_fit 0%nat "t" "city" "y" "10" None 2 2 "ols" (toy_world "y")
              (toy_frame "y") _ _ (toy_reserved true) (toy_frame_wf "y")
              (toy_world_data "y") toy_run_agg)
    as (keys & rs & Hk & _ & _ & Hlen & _ & _ & Hreq).
  exists keys, rs. split; [exact Hk|]. split; [exact Hlen|].
  eapply list.Forall_impl; [exact Hreq|].
  intros rp (ys & y_sim & v & const & Hys & HA & HB & _).
  exists ys, y_sim, v, const. split; [exact Hys|]. split; [exact HA|exact HB].
Defined.


Lemma unconvertible_time_raises_before_simulation_witness :
  "ols" ∈ ["ols"; "mlm"] ∧ ¬ (false = true ∧ "ols" = "mlm") ∧
  heap (toy_world "y") !! 0%nat = Some (toy_frame "y") ∧
  NoDup (columns_of "note" "city" "y" None) ∧
  (∀ c, c ∈ columns_of "note" "city" "y" None →
        is_Some (cols (toy_frame "y") !! c)) ∧
  cols (toy_frame "y") !! "note"
    = Some [CStr "u"; CStr "v"; CStr "w"; CStr "x"] ∧
  mapM toy_datetime [CStr "u"; CStr "v"; CStr "w"; CStr "x"] = None ∧
  ∃ e w',
    ModelQuality toy_datetime toy_bucketing toy_fit 0%nat "note" "city" "y" "10"
      None 2 2 "ols" false (toy_world "y") = (Raise e, w') ∧
    trace w' = trace (toy_world "y") ∧ drawn w' = drawn (toy_world "y").
Proof.
  assert (NoDup (columns_of "note" "city" "y" None)) as Hnd
    by (apply (bool_decide_unpack _); by vm_compute).
  assert (∀ c, c ∈ columns_of "note" "city" "y" None →
               is_Some (cols (toy_frame "y") !! c)) as Hall.
  { intros c Hc. unfold columns_of in Hc. simpl in Hc.
    rewrite !elem_of_cons, elem_of_nil in Hc.
    destruct Hc as [->|[->|[->|[]]]]; vm_compute; eauto. }
  assert (cols (toy_frame "y") !! "note"
          = Some [CStr "u"; CStr "v"; CStr "w"; CStr "x"]) as Hraw
    by (vm_compute; reflexivity).
  assert (mapM toy_datetime [CStr "u"; CStr "v"; CStr "w"; CStr "x"] = None) as Ht
    by reflexivity.
  split; [exact toy_method|]. split; [apply toy_not_mlm|].
  split; [apply toy_world_data|]. split; [exact Hnd|]. split; [exact Hall|].
  split; [exact Hraw|]. split; [exact Ht|].
  exact (unconvertible_time_raises_before_simulation toy_datetime toy_bucketing
           toy_fit 0%nat "note" "city" "y" "10" None 2 2 "ols" false
           (toy_world "y") (toy_frame "y") _ toy_method (toy_not_mlm false)
           (toy_world_data "y") Hnd Hall Hraw Ht).
Defined.

Lemma unknown_frequency_raises_before_simulation_witness :
  "ols" ∈ ["ols"; "mlm"] ∧ ¬ (true = true ∧ "ols" = "mlm") ∧
  heap (toy_world "y") !! 0%nat = Some (toy_frame "y") ∧
  NoDup (columns_of "t" "city" "y" None) ∧
  (∀ c, c ∈ columns_of "t" "city" "y" None →
        is_Some (cols (toy_frame "y") !! c)) ∧
  cols (toy_frame "y") !! "t" = Some [CTime 5; CTime 15; CTime 7; CTime 5] ∧
  is_Some (mapM toy_datetime [CTime 5; CTime 15; CTime 7; CTime 5]) ∧
  toy_bucketing "W" = None ∧
  ∃ e w',
    ModelQuality toy_datetime toy_bucketing toy_fit 0%nat "t" "city" "y" "W"
      None 2 2 "ols" true (toy_world "y") = (Raise e, w') ∧
    trace w' = trace (toy_world "y") ∧ drawn w' = drawn (toy_world "y").
Proof.
  pose proof (toy_valid "ols" true (or_introl eq_refl)) as (_ & Hnd & Hall & _).
  assert (cols (toy_frame "y") !! "t" = Some [CTime 5; CTime 15; CTime 7; CTime 5])
    as Hraw by (vm_compute; reflexivity).
  assert (is_Some (mapM toy_datetime [CTime 5; CTime 15; CTime 7; CTime 5])) as Ht
    by (by eexists).
  assert (toy_bucketing "W" = None) as HF by reflexivity.
  split; [exact toy_method|]. split; [apply toy_not_mlm|].
  split; [apply toy_world_data|]. split; [exact Hnd|]. split; [exact Hall|].
  split; [exact Hraw|]. split; [exact Ht|]. split; [exact HF|].
  exact (unknown_frequency_raises_before_simulation toy_datetime toy_bucketing
           toy_fit 0%nat "t" "city" "y" "W" None 2 2 "ols" true
           (toy_world "y") (toy_frame "y") _ toy_method (toy_not_mlm true)
           (toy_world_data "y") Hnd Hall Hraw Ht HF).
Defined.

Lemma nan_exactly_without_replicates_witness :
  frame_wf (toy_frame "y") ∧
  heap (toy_world "y") !! 0%nat = Some (toy_frame "y") ∧
  toy_run "y" 2 (-1) "ols" false
    = (Ok [NaN; NaN], (toy_run "y" 2 (-1) "ols" false).2) ∧
  ∃ x y, [NaN; NaN] = [x; y] ∧ (x = NaN ↔ (-1 <= 0)%Z) ∧ (y = NaN ↔ (-1 <= 0)%Z).
Proof.
  split; [apply toy_frame_wf|]. split; [apply toy_world_data|].
  split; [exact toy_run_negative|].
  destruct (nan_exactly_without_replicates toy_datetime toy_bucketing toy_fit
              0%nat "t" "city" "y" "10" None 2 (-1) "ols" false (toy_world "y")
              (toy_frame "y") _ _ (toy_frame_wf "y") (toy_world_data "y")
              toy_run_negative)
    as (x & y & Hres & Hx & Hy & _).
  exists x, y. split; [exact Hres|]. split; [exact Hx|exact Hy].
Defined.


Lemma order_level_rows_sorted_by_cluster_witness :
  frame_wf (toy_frame "y") ∧
  heap (toy_world "y") !! 0%nat = Some (toy_frame "y") ∧
  toy_run "y" 2 2 "ols" false
    = (Ok [Fin (0 # 2); Fin (2 # 2)], (toy_run "y" 2 2 "ols" false).2) ∧
  ∃ keys rs,
    observation_keys toy_datetime toy_bucketing (toy_frame "y") "t" "city" "10" true
      = Ok keys ∧
    Z.of_nat (length rs) = Z.max 0 2 ∧
    StronglySorted
      (λ k1 k2, (group_number (group_keys keys) k1
                 ≤ group_number (group_keys keys) k2)%nat)
      (analysis_rows false keys) ∧
    Forall (λ rp, length (rep_bits rp) = length (group_keys keys)) rs.
Proof.
  split; [apply toy_frame_wf|]. split; [apply toy_world_data|].
  split; [exact toy_run_order|].
  destruct (order_level_rows_sorted_by_cluster toy_datetime toy_bucketing toy_fit
              0%nat "t" "city" "y" "10" None 2 2 "ols" (toy_world "y")
              (toy_frame "y") _ _ (toy_frame_wf "y") (toy_world_data "y")
              toy_run_order)
    as (keys & rs & Hk & _ & Hlen & Hsorted & _ & _ & Hreq).
  exists keys, rs. split; [exact Hk|]. split; [exact Hlen|].
  split; [exact Hsorted|].
  eapply list.Forall_impl; [exact Hreq|]. intros rp [H _]. exact H.
Defined.

Lemma modes_draw_the_same_flips_witness :
  frame_wf (toy_frame "y") ∧
  heap (toy_world "y") !! 0%nat = Some (toy_frame "y") ∧
  toy_run "y" 2 2 "ols" false
    = (Ok [Fin (0 # 2); Fin (2 # 2)], (toy_run "y" 2 2 "ols" false).2) ∧
  toy_run "y" 2 2 "ols" true
    = (Ok [Fin (0 # 2); Fin (1 # 2)], (toy_run "y" 2 2 "ols" true).2) ∧
  ∃ (ko ka : list label) (rs1 rs2 : list rep),
    ka = reverse <$> ko ∧
    length (remove_dups ka) = length (remove_dups ko) ∧
    rep_bits <$> rs1 = rep_bits <$> rs2 ∧
    drawn (toy_run "y" 2 2 "ols" false).2 = drawn (toy_run "y" 2 2 "ols" true).2.
Proof.
  split; [apply toy_frame_wf|]. split; [apply toy_world_data|].
  split; [exact toy_run_order|]. split; [exact toy_run_agg|].
  destruct (modes_draw_the_same_flips toy_datetime toy_bucketing toy_fit
              0%nat "t" "city" "y" "10" None 2 2 "ols" "ols" (toy_world "y")
              (toy_frame "y") _ _ _ _ (toy_frame_wf "y") (toy_world_data "y")
              toy_run_order toy_run_agg)
    as (ko & ka & rs1 & rs2 & _ & _ & Hswap & Hn & _ & _ & Hbits & _ & Hd).
  exists ko, ka, rs1, rs2. split; [exact Hswap|]. split; [exact Hn|].
  split; [exact Hbits|exact Hd].
Defined.

(** ** An outcome column named like the working column *)

Section Renamed.
Variable to_datetime : cell → option Z.
Variable bucketing : string → option (Z → Z).
Variable fit : fit_request → option num.

(** X13.  When the outcome column is itself named outcome_sim, the
    injection overwrites it before the A/A fit reads it: in every replicate
    the A/A fit is given the very request of the A/B fit, and the two
    values returned are equal. *)
Theorem outcome_named_outcome_sim_has_no_null_test
    data tv lv F cv MDE sims method agg w src res w' :
  frame_wf src →
  heap w !! data = Some src →
  ModelQuality to_datetime bucketing fit data tv lv "outcome_sim" F cv MDE sims
    method agg w = (Ok res, w') →
  ∃ rs a,
    trace w' = trace w ++ (rs ≫= rep_events "outcome_sim") ∧
    Z.of_nat (length rs) = Z.max 0 sims ∧
    Forall (λ rp, rep_AA rp = rep_AB rp) rs ∧
    res = [a; a].
Proof.
  intros Hwf Hsrc Hrun.
  destruct (ModelQuality_replicates _ _ _ _ _ _ _ _ _ _ _ _ _ _ _ _ _ Hsrc Hwf Hrun)
    as (keys & rs & df0 & r & dfN & _ & _ & _ & _ & _ & _ & _ & _ & _ & Hlen
        & Hgood & _ & _ & _ & Htrace & ->).
  assert (Forall (λ rp, rep_AA rp = rep_AB rp) rs) as Hsame.
  { eapply list.Forall_impl; [exact Hgood|].
    intros rp (_ & xs & _ & HB & HA & _). rewrite HA, HB.
    by rewrite decide_True. }
  exists rs, (np_mean ((λ r, indicator fit (5 # 100) (rep_AB r)) <$> rs)).
  split; [done|]. split; [lia|]. split; [done|].
  do 2 f_equal. apply list_fmap_ext.
  intros i rp Hi. rewrite list.Forall_forall in Hsame.
  rewrite (Hsame rp); [done|]. by eapply list_elem_of_lookup_2.
Qed.
End Renamed.

Lemma toy_run_renamed :
  toy_run "outcome_sim" 2 1 "ols" false
  = (Ok [Fin 1; Fin 1], (toy_run "outcome_sim" 2 1 "ols" false).2).
Proof. vm_compute. reflexivity. Qed.

Lemma outcome_named_outcome_sim_has_no_null_test_witness :
  frame_wf (toy_frame "outcome_sim") ∧
  heap (toy_world "outcome_sim") !! 0%nat = Some (toy_frame "outcome_sim") ∧
  toy_run "outcome_sim" 2 1 "ols" false
    = (Ok [Fin 1; Fin 1], (toy_run "outcome_sim" 2 1 "ols" false).2) ∧
  ∃ (rs : list rep) a,
    Z.of_nat (length rs) = Z.max 0 1 ∧
    Forall (λ rp, rep_AA rp = rep_AB rp) rs ∧
    [Fin 1; Fin 1] = [a; a].
Proof.
  split; [apply toy_frame_wf|]. split; [apply toy_world_data|].
  split; [exact toy_run_renamed|].
  destruct (outcome_named_outcome_sim_has_no_null_test toy_datetime toy_bucketing
              toy_fit 0%nat "t" "city" "10" None 2 1 "ols" false
              (toy_world "outcome_sim") (toy_frame "outcome_sim") _ _
              (toy_frame_wf "outcome_sim") (toy_world_data "outcome_sim")
              toy_run_renamed)
    as (rs & a & _ & Hlen & Hsame & Hres).
  exists rs, a. split; [exact Hlen|]. split; [exact Hsame|exact Hres].
Defined.
